(** * Round-trip trading scripts of the Hyperliquid Python SDK examples

    A shallow embedding of the three scripts
    [examples/ueth_50_roundtrips.py], [examples/ueth_roundtrip_trade.py] and
    [examples/usde_roundtrip_trade.py], and the properties of their
    round-trip and batch logic.

    Conventions of the embedding.
    - Python floats are read as exact rationals ([Q]); [float(s)] applied to
      a decimal string of the venue is the number it denotes.  Rounding
      error of binary floating point is outside the model.
    - The venue ([info], [exchange], [time.sleep]) is an interface
      ([Venue]); the scripts thread its state explicitly.  Every call may
      fail, as any SDK call may.
    - Python exceptions are an error monad; [try: ... except Exception] is
      [try_except].  The state reached when an exception is raised is kept
      (orders already placed stay placed).
    - Of the printed output only the per-trade banner is kept; every call
      of [exchange.market_open] is recorded in the trace. *)

From Stdlib Require Import QArith Qround Lqa Lia.
From stdpp Require Import base option list strings gmap.

Local Open Scope Q_scope.

(** ** Python values and exceptions *)

(** One row of [spot_user_state(address)["balances"]]. *)
Record BalanceRow := mkBalanceRow {
  coin : string;
  total : Q;
  hold : Q
}.

(** The arguments of one [exchange.market_open(name=..., is_buy=..., sz=...,
    slippage=...)] call. *)
Record OrderRequest := mkOrderRequest {
  name : string;
  is_buy : bool;
  sz : Q;
  slippage : Q
}.

(** The dict returned by [exchange.market_open]; only ["status"] is read. *)
Record OrderResult := mkOrderResult {
  status : string;
  response : string
}.

(** [spot_meta()]: the instrument universe and the token table. *)
Record AssetInfo := mkAssetInfo {
  asset_name : string;
  asset_tokens : list nat
}.

Record TokenInfo := mkTokenInfo {
  token_name : string
}.

Record SpotMeta := mkSpotMeta {
  universe : list AssetInfo;
  tokens : list TokenInfo
}.

(** [user_fees(address)]; only ["userCrossRate"] is read. *)
Record UserFees := mkUserFees {
  userCrossRate : Q
}.

(** One entry of [user_fills(address)]; only printed. *)
Record Fill := mkFill {
  fill_coin : string;
  fill_side : string;
  fill_sz : Q;
  fill_px : Q
}.

(** The messages of the [raise Exception(f"...")] statements of the scripts,
    one constructor per format string, carrying the formatted values. *)
Inductive message :=
| Insufficient_USDC (usdc_before : Q)
| Insufficient_USDC_balance (initial_usdc : Q)
| Buy_failed (buy_result : OrderResult)
| Sell_failed (sell_result : OrderResult)
| No_base_received
| Pair_not_found.

Inductive exn :=
| Exception (m : message)
| ZeroDivisionError
| KeyError (key : string)
| IndexError
| NameError (unbound : string)
| SdkError (detail : string).

Inductive res (A : Type) :=
| Returns (a : A)
| Raises (e : exn).
Arguments Returns {A} a.
Arguments Raises {A} e.

(** ** The venue

    The SDK handles [info] and [exchange] and the clock, as functions of
    the venue's state [W].  A call answers, or fails inside the SDK with
    some detail; [venue_sleep] is the venue moving on while the script
    sleeps. *)

Inductive answer (A : Type) :=
| Answer (a : A)
| Failure (detail : string).
Arguments Answer {A} a.
Arguments Failure {A} detail.

Class Venue (W : Type) := {
  venue_spot_meta : W -> answer SpotMeta * W;
  venue_spot_user_state : string -> W -> answer (list BalanceRow) * W;
  venue_all_mids : W -> answer (gmap string Q) * W;
  venue_user_fills : string -> W -> answer (list Fill) * W;
  venue_user_fees : string -> W -> answer UserFees * W;
  venue_market_open : OrderRequest -> W -> answer OrderResult * W;
  venue_sleep : Q -> W -> W
}.

(** ** Observable events and the script monad *)

Inductive event :=
| EvOrder (o : OrderRequest)
| EvBanner (trade_num total_trades : nat).

Record St (W : Type) := mkSt {
  world : W;
  trace : list event
}.
Arguments mkSt {W} world trace.
Arguments world {W} s.
Arguments trace {W} s.

Definition M (W A : Type) : Type := St W -> res A * St W.

Definition ret {W A} (a : A) : M W A := fun s => (Returns a, s).

Definition raise {W A} (e : exn) : M W A := fun s => (Raises e, s).

Definition bind {W A B} (m : M W A) (k : A -> M W B) : M W B :=
  fun s =>
    match m s with
    | (Returns a, s') => k a s'
    | (Raises e, s') => (Raises e, s')
    end.

Declare Scope py_scope.
Delimit Scope py_scope with py.
Notation "x <- m ;; k" := (bind m (fun x => k))
  (at level 100, m at next level, right associativity) : py_scope.
Notation "m ;;; k" := (bind m (fun _ => k))
  (at level 100, right associativity) : py_scope.
Local Open Scope py_scope.

(** [try: body except Exception as e: handler e]. *)
Definition try_except {W A} (body : M W A) (handler : exn -> M W A) : M W A :=
  fun s =>
    match body s with
    | (Returns a, s') => (Returns a, s')
    | (Raises e, s') => handler e s'
    end.

Definition emit {W} (ev : event) : M W unit :=
  fun s => (Returns tt, mkSt (world s) (trace s ++ [ev])).

(** A call into the SDK: its failure is an exception of the SDK. *)
Definition call {W A} (f : W -> answer A * W) : M W A :=
  fun s =>
    match f (world s) with
    | (Answer a, w') => (Returns a, mkSt w' (trace s))
    | (Failure detail, w') => (Raises (SdkError detail), mkSt w' (trace s))
    end.

(** Reading a name that is bound nowhere. *)
Definition unbound {W A} (x : string) : M W A := raise (NameError x).

(** [a / b] on floats. *)
Definition truediv {W} (a b : Q) : M W Q :=
  if Qeq_bool b 0 then raise ZeroDivisionError else ret (a / b).

(** [d[k]] on a dict with string keys. *)
Definition getitem {W A} (d : gmap string A) (k : string) : M W A :=
  match d !! k with
  | Some v => ret v
  | None => raise (KeyError k)
  end.

(** [l[i]] on a list, [i] a non-negative index. *)
Definition index {W A} (l : list A) (i : nat) : M W A :=
  match l !! i with
  | Some v => ret v
  | None => raise IndexError
  end.

(** [math.floor(x * 10000) / 10000]. *)
Definition floor4 (x : Q) : Q := inject_Z (Qfloor (x * 10000)) / 10000.

Section Scripts.
Context {W : Type} `{Venue W}.

Definition info_spot_meta : M W SpotMeta := call venue_spot_meta.
Definition info_spot_user_state (address : string) : M W (list BalanceRow) :=
  call (venue_spot_user_state address).
Definition info_all_mids : M W (gmap string Q) := call venue_all_mids.
Definition info_user_fills (address : string) : M W (list Fill) :=
  call (venue_user_fills address).
Definition info_user_fees (address : string) : M W UserFees :=
  call (venue_user_fees address).
Definition time_sleep (secs : Q) : M W unit :=
  fun s => (Returns tt, mkSt (venue_sleep secs (world s)) (trace s)).

Definition exchange_market_open (name : string) (is_buy : bool) (sz slippage : Q)
  : M W OrderResult :=
  let o := mkOrderRequest name is_buy sz slippage in
  emit (EvOrder o) ;;; call (venue_market_open o).

(** The [for balance in spot_state["balances"]] loop of [get_balance]. *)
Fixpoint scan_balances (balances : list BalanceRow) (token_name : string) : Q :=
  match balances with
  | [] => 0
  | balance :: rest =>
      if String.eqb (coin balance) token_name then total balance
      else scan_balances rest token_name
  end.

(** [get_balance(info, address, token_name)], the same text in all three
    scripts. *)
Definition get_balance (address token_name : string) : M W Q :=
  spot_state <- info_spot_user_state address ;;
  ret (scan_balances spot_state token_name).

End Scripts.

(** ** Code the scripts share *)

Section Shared.
Context {W : Type} `{Venue W}.

(** The body of the [for asset_info in spot_meta["universe"]] loop of
    [find_ueth_usdc_pair], and the [raise] after it.  The three scripts
    have the same function (the batch script without the prints). *)
Fixpoint find_pair_loop (spot_meta : SpotMeta) (rest : list AssetInfo)
  : M W (string * string) :=
  match rest with
  | [] => raise (Exception Pair_not_found)
  | asset_info :: rest' =>
      let name := asset_name asset_info in
      let tokens_ := asset_tokens asset_info in
      t0 <- index tokens_ 0 ;;
      base_token <- index (tokens spot_meta) t0 ;;
      t1 <- index tokens_ 1 ;;
      quote_token <- index (tokens spot_meta) t1 ;;
      let pair_name := (token_name base_token ++ "/" ++ token_name quote_token)%string in
      if String.eqb pair_name "UETH/USDC" then ret (name, pair_name)
      else find_pair_loop spot_meta rest'
  end.

Definition find_ueth_usdc_pair : M W (string * string) :=
  spot_meta <- info_spot_meta ;;
  find_pair_loop spot_meta (universe spot_meta).

(** [wait_for_fill(info, address, timeout)]: a fixed sleep, then the recent
    fills are fetched (and the latest one printed). *)
Definition wait_for_fill (address : string) (timeout : Q) : M W (list Fill) :=
  time_sleep timeout ;;;
  recent_fills <- info_user_fills address ;;
  ret recent_fills.

End Shared.

(** ** [examples/ueth_50_roundtrips.py] *)

Module Ueth50Roundtrips.

(** The dict returned by [execute_single_roundtrip]: the failure dict has
    no ['usdc_remaining'], ['ueth_amount'], ['ueth_price']; the success
    dict has no ['error']. *)
Record TradeResult := mkTradeResult {
  success : bool;
  error : option exn;
  volume : Q;
  cost : Q;
  usdc_remaining : option Q;
  ueth_amount : option Q;
  ueth_price : option Q
}.

(** The accumulators of [main]'s loop. *)
Record BatchStats := mkBatchStats {
  total_volume : Q;
  total_cost : Q;
  successful_trades : nat;
  failed_trades : nat;
  trade_results : list TradeResult
}.

(** What [main] reports, or the exception its [except] clause prints. *)
Record Summary := mkSummary {
  initial_usdc : Q;
  final_usdc : Q;
  stats : BatchStats
}.

Inductive Outcome :=
| Finished (s : Summary)
| SetupFailed (e : exn).

Section Script.
Context {W : Type} `{Venue W}.

(** [execute_single_roundtrip(exchange, info, address, ueth_asset,
    trade_num, total_trades)]: the banner, then the [try] block; the
    [except] clause turns any exception into the failure dict. *)
Definition execute_single_roundtrip (address ueth_asset : string)
    (trade_num total_trades : nat) : M W TradeResult :=
  emit (EvBanner trade_num total_trades) ;;;
  try_except
    (usdc_before <- get_balance address "USDC" ;;
     if Qlt_le_dec usdc_before 1 then raise (Exception (Insufficient_USDC usdc_before))
     else
     all_mids <- info_all_mids ;;
     ueth_price <- getitem all_mids ueth_asset ;;
     estimated_ueth_amount <- truediv usdc_before ueth_price ;;
     let ueth_trade_amount := floor4 estimated_ueth_amount in
     buy_result <- exchange_market_open ueth_asset true ueth_trade_amount (1 # 1000) ;;
     if negb (String.eqb (status buy_result) "ok")
     then raise (Exception (Buy_failed buy_result))
     else
     time_sleep 1 ;;;
     sell_result <- exchange_market_open ueth_asset false ueth_trade_amount (1 # 1000) ;;
     if negb (String.eqb (status sell_result) "ok")
     then raise (Exception (Sell_failed sell_result))
     else
     time_sleep 1 ;;;
     usdc_after <- get_balance address "USDC" ;;
     let trade_cost := usdc_before - usdc_after in
     let volume_generated := ueth_trade_amount * ueth_price * 2 in
     ret (mkTradeResult true None volume_generated trade_cost
            (Some usdc_after) (Some ueth_trade_amount) (Some ueth_price)))
    (fun e => ret (mkTradeResult false (Some e) 0 0 None None None)).

Definition initial_stats : BatchStats := mkBatchStats 0 0 0 0 [].

(** The [for trade_num in range(1, total_trades + 1)] loop of [main], over
    the trade numbers still to run; the [else] branch is the [break]. *)
Fixpoint batch_loop (address ueth_asset : string) (total_trades : nat)
    (trade_nums : list nat) (acc : BatchStats) : M W BatchStats :=
  match trade_nums with
  | [] => ret acc
  | trade_num :: rest =>
      result <- execute_single_roundtrip address ueth_asset trade_num total_trades ;;
      let results' := trade_results acc ++ [result] in
      if success result then
        batch_loop address ueth_asset total_trades rest
          (mkBatchStats (total_volume acc + volume result)
                        (total_cost acc + cost result)
                        (S (successful_trades acc))
                        (failed_trades acc)
                        results')
      else
        ret (mkBatchStats (total_volume acc) (total_cost acc)
                          (successful_trades acc)
                          (S (failed_trades acc))
                          results')
  end.

(** Lines 136-165 of [main], with the local [total_trades] (50 in the
    script) as an argument. *)
Definition run_batch (address ueth_asset : string) (total_trades : nat)
  : M W BatchStats :=
  batch_loop address ueth_asset total_trades (seq 1 total_trades) initial_stats.

(** [main], given the [address] that [example_utils.setup] returned (that
    module is not part of the sources): pair lookup, initial balance, the
    batch, final balance; the outer [except] reports a setup failure. *)
Definition main_with (address : string) (total_trades : nat) : M W Outcome :=
  try_except
    (found <- find_ueth_usdc_pair ;;
     let ueth_asset := fst found in
     initial_usdc <- get_balance address "USDC" ;;
     b <- run_batch address ueth_asset total_trades ;;
     final_usdc <- get_balance address "USDC" ;;
     ret (Finished (mkSummary initial_usdc final_usdc b)))
    (fun e => ret (SetupFailed e)).

Definition main (address : string) : M W Outcome := main_with address 50.

End Script.
End Ueth50Roundtrips.

(** ** [examples/ueth_roundtrip_trade.py] *)

Module UethRoundtripTrade.

(** The local variables of [main] once the balances after the buy have
    been read (line 136). *)
Record Locals := mkLocals {
  ueth_asset : string;
  ueth_price : Q;
  initial_usdc : Q;
  initial_ueth : Q;
  ueth_trade_amount : Q;
  usdc_after_buy : Q;
  ueth_after_buy : Q
}.

(** The quantities [main] prints once the round trip completed. *)
Record Report := mkReport {
  locals : Locals;
  actual_ueth_bought : Q;
  usdc_spent : Q;
  final_usdc : Q;
  usdc_received : Q;
  net_usdc_change : Q;
  total_volume : Q
}.

Inductive Outcome :=
| Completed (r : Report)
| TradeFailed (e : exn).

Section Script.
Context {W : Type} `{Venue W}.

(** The inner [try: ... except Exception as e: print(...)] around the fee
    estimate: whatever it raises is printed and dropped. *)
Definition fee_report (address : string) (net_usdc_change total_volume : Q) : M W unit :=
  try_except
    (user_fees_data <- info_user_fees address ;;
     let taker_fee_rate := userCrossRate user_fees_data in
     let estimated_fees := total_volume * taker_fee_rate in
     let spread_loss := - net_usdc_change - estimated_fees in
     q <- truediv (- net_usdc_change) total_volume ;;
     let cost_per_dollar_volume := q * 100 in
     ret tt)
    (fun e => ret tt).

(** Lines 74-139 of [main]: pair lookup, price, initial balances, sizing,
    the buy order, the wait and the balances after the buy. *)
Definition buy_leg (address : string) : M W Locals :=
  found <- find_ueth_usdc_pair ;;
  let ueth_asset := fst found in
  all_mids <- info_all_mids ;;
  ueth_price <- getitem all_mids ueth_asset ;;
  initial_usdc <- get_balance address "USDC" ;;
  initial_ueth <- get_balance address "UETH" ;;
  let trade_usdc_amount := initial_usdc in
  estimated_ueth_amount <- truediv trade_usdc_amount ueth_price ;;
  let ueth_trade_amount := floor4 estimated_ueth_amount in
  let actual_usdc_needed := ueth_trade_amount * ueth_price in
  if Qlt_le_dec trade_usdc_amount 1
  then raise (Exception (Insufficient_USDC_balance initial_usdc))
  else
  buy_result <- exchange_market_open ueth_asset true ueth_trade_amount (1 # 1000) ;;
  if negb (String.eqb (status buy_result) "ok")
  then raise (Exception (Buy_failed buy_result))
  else
  wait_for_fill address 5 ;;;
  usdc_after_buy <- get_balance address "USDC" ;;
  ueth_after_buy <- get_balance address "UETH" ;;
  ret (mkLocals ueth_asset ueth_price initial_usdc initial_ueth ueth_trade_amount
         usdc_after_buy ueth_after_buy).

(** Lines 141-236 of [main]: the fill check, the sell order, the final
    balances and the figures of the summary. *)
Definition sell_leg (address : string) (l : Locals) : M W Report :=
  let actual_ueth_bought := ueth_after_buy l - initial_ueth l in
  let usdc_spent := initial_usdc l - usdc_after_buy l in
  if Qle_bool actual_ueth_bought 0 then raise (Exception No_base_received)
  else
  effective_buy_price <- truediv usdc_spent actual_ueth_bought ;;
  sell_result <- exchange_market_open (ueth_asset l) false (ueth_trade_amount l) (1 # 1000) ;;
  if negb (String.eqb (status sell_result) "ok")
  then raise (Exception (Sell_failed sell_result))
  else
  wait_for_fill address 5 ;;;
  final_usdc <- get_balance address "USDC" ;;
  final_ueth <- get_balance address "UETH" ;;
  let usdc_received := final_usdc - usdc_after_buy l in
  effective_sell_price <- truediv usdc_received (ueth_trade_amount l) ;;
  let net_usdc_change := final_usdc - initial_usdc l in
  let total_volume := usdc_spent + usdc_received in
  fee_report address net_usdc_change total_volume ;;;
  ret (mkReport l actual_ueth_bought usdc_spent final_usdc usdc_received
         net_usdc_change total_volume).

(** The [try] block of [main]. *)
Definition main_body (address : string) : M W Report :=
  l <- buy_leg address ;;
  sell_leg address l.

(** [main], given the [address] that [example_utils.setup] returned; the
    [except] clause prints the failure. *)
Definition main (address : string) : M W Outcome :=
  try_except
    (r <- main_body address ;; ret (Completed r))
    (fun e => ret (TradeFailed e)).

End Script.
End UethRoundtripTrade.

(** ** [examples/usde_roundtrip_trade.py] *)

Module UsdeRoundtripTrade.

Record Report := mkReport {
  estimated_ueth_amount : Q;
  actual_usde_bought : Q;
  usde_sold : Q;
  usdc_spent : Q;
  usdc_received : Q;
  net_usdc_change : Q;
  total_volume : Q
}.

Inductive Outcome :=
| Completed (r : Report)
| TradeFailed (e : exn).

Section Script.
Context {W : Type} `{Venue W}.

Definition fee_report (address : string) (net_usdc_change total_volume : Q) : M W unit :=
  try_except
    (user_fees_data <- info_user_fees address ;;
     let taker_fee_rate := userCrossRate user_fees_data in
     let estimated_fees := total_volume * taker_fee_rate in
     let spread_loss := - net_usdc_change - estimated_fees in
     q <- truediv (- net_usdc_change) total_volume ;;
     let cost_per_dollar_volume := q * 100 in
     ret tt)
    (fun e => ret tt).

(** The [try] block of [main].  The names [initial_usde] and [usde_asset]
    are read but bound nowhere in the script (no assignment in [main], no
    module global, no builtin): reading them raises [NameError]. *)
Definition main_body (address : string) : M W Report :=
  found <- find_ueth_usdc_pair ;;
  let ueth_asset := fst found in
  all_mids <- info_all_mids ;;
  ueth_price <- getitem all_mids ueth_asset ;;
  initial_usdc <- get_balance address "USDC" ;;
  initial_ueth <- get_balance address "UETH" ;;
  let trade_usdc_amount := initial_usdc in
  estimated_ueth_amount <- truediv trade_usdc_amount ueth_price ;;
  if Qlt_le_dec trade_usdc_amount 1
  then raise (Exception (Insufficient_USDC_balance initial_usdc))
  else
  buy_result <- exchange_market_open ueth_asset true estimated_ueth_amount (1 # 1000) ;;
  if negb (String.eqb (status buy_result) "ok")
  then raise (Exception (Buy_failed buy_result))
  else
  wait_for_fill address 5 ;;;
  usdc_after_buy <- get_balance address "USDC" ;;
  usde_after_buy <- get_balance address "USDE" ;;
  initial_usde <- unbound "initial_usde" ;;
  let actual_usde_bought := usde_after_buy - initial_usde in
  let usdc_spent := initial_usdc - usdc_after_buy in
  if Qle_bool actual_usde_bought 0 then raise (Exception No_base_received)
  else
  effective_buy_price <- truediv usdc_spent actual_usde_bought ;;
  usde_asset <- unbound "usde_asset" ;;
  sell_result <- exchange_market_open usde_asset false actual_usde_bought (1 # 1000) ;;
  if negb (String.eqb (status sell_result) "ok")
  then raise (Exception (Sell_failed sell_result))
  else
  wait_for_fill address 5 ;;;
  final_usdc <- get_balance address "USDC" ;;
  final_usde <- get_balance address "USDE" ;;
  let usdc_received := final_usdc - usdc_after_buy in
  let usde_sold := usde_after_buy - final_usde in
  effective_sell_price <- truediv usdc_received usde_sold ;;
  let net_usdc_change := final_usdc - initial_usdc in
  let total_volume := usdc_spent + usdc_received in
  fee_report address net_usdc_change total_volume ;;;
  ret (mkReport estimated_ueth_amount actual_usde_bought usde_sold usdc_spent
         usdc_received net_usdc_change total_volume).

Definition main (address : string) : M W Outcome :=
  try_except
    (r <- main_body address ;; ret (Completed r))
    (fun e => ret (TradeFailed e)).

End Script.
End UsdeRoundtripTrade.

(** ** Reading traces *)

(** The orders placed, oldest first. *)
Fixpoint orders (t : list event) : list OrderRequest :=
  match t with
  | [] => []
  | EvOrder o :: t' => o :: orders t'
  | EvBanner _ _ :: t' => orders t'
  end.

(** The trade banners printed, oldest first: one per round trip attempted. *)
Fixpoint banners (t : list event) : list (nat * nat) :=
  match t with
  | [] => []
  | EvOrder _ :: t' => banners t'
  | EvBanner k n :: t' => (k, n) :: banners t'
  end.

Definition buy_order (asset : string) (q : Q) : OrderRequest :=
  mkOrderRequest asset true q (1 # 1000).

Definition sell_order (asset : string) (q : Q) : OrderRequest :=
  mkOrderRequest asset false q (1 # 1000).

(** The orders one round trip may place: none, a buy, or a buy and a sell
    of the same size on the same instrument. *)
Inductive roundtrip_orders : list OrderRequest -> Prop :=
| rt_none : roundtrip_orders []
| rt_buy asset q : roundtrip_orders [buy_order asset q]
| rt_buy_sell asset q : roundtrip_orders [buy_order asset q; sell_order asset q].

Module Ueth50Runs.
Import Ueth50Roundtrips.
Section Runs.
Context {W : Type} `{Venue W}.
Variables (address ueth_asset : string) (total_trades : nat).

(** Whether round trip [trade_num], started in state [s], succeeds. *)
Definition trip_ok (trade_num : nat) (s : St W) : bool :=
  match fst (execute_single_roundtrip address ueth_asset trade_num total_trades s) with
  | Returns r => success r
  | Raises _ => false
  end.

(** The state after the round trips [trade_nums] have run one after the
    other. *)
Fixpoint after_trips (trade_nums : list nat) (s : St W) : St W :=
  match trade_nums with
  | [] => s
  | trade_num :: rest =>
      after_trips rest
        (snd (execute_single_roundtrip address ueth_asset trade_num total_trades s))
  end.

End Runs.
End Ueth50Runs.

(** ** A scripted venue

    A venue whose answers are fixed in advance: the balances it reports
    depend only on how many orders it has received, every order gets the
    scripted reply, and no call fails. *)

Record Scripted := mkScripted {
  placed : nat;
  book : nat -> list BalanceRow;
  mids : gmap string Q;
  replies : nat -> OrderResult
}.

Definition scripted_meta : SpotMeta :=
  mkSpotMeta
    [mkAssetInfo "PURR/USDC" [1; 0]%nat; mkAssetInfo "@151" [2; 0]%nat]
    [mkTokenInfo "USDC"; mkTokenInfo "PURR"; mkTokenInfo "UETH"].

#[export] Instance scripted_venue : Venue Scripted := {
  venue_spot_meta w := (Answer scripted_meta, w);
  venue_spot_user_state _ w := (Answer (book w (placed w)), w);
  venue_all_mids w := (Answer (mids w), w);
  venue_user_fills _ w := (Answer [], w);
  venue_user_fees _ w := (Answer (mkUserFees (7 # 10000)), w);
  venue_market_open _ w :=
    (Answer (replies w (placed w)),
     mkScripted (S (placed w)) (book w) (mids w) (replies w));
  venue_sleep _ w := w
}.

Definition ok_reply : OrderResult := mkOrderResult "ok" "filled".
Definition err_reply : OrderResult := mkOrderResult "err" "rejected".

Definition start (w : Scripted) : St Scripted := mkSt w [].

Definition ueth_mids : gmap string Q := {[ "@151" := 3000 ]}.

(** 115 USDC buys 0.0383 UETH at the mid of 3000; the venue credits 0.03797
    UETH (its fee is taken in the asset received) and the sale returns
    114.7 USDC. *)
Definition partial_fill : Scripted :=
  mkScripted 0
    (fun k => match k with
              | O => [mkBalanceRow "USDC" 115 0; mkBalanceRow "UETH" (1 # 1000) 0]
              | S O => [mkBalanceRow "USDC" (1 # 10) 0; mkBalanceRow "UETH" (3897 # 100000) 0]
              | _ => [mkBalanceRow "USDC" (1148 # 10) 0; mkBalanceRow "UETH" (67 # 100000) 0]
              end)
    ueth_mids (fun _ => ok_reply).

(** Orders are accepted but nothing ever fills: no balance moves. *)
Definition never_fills : Scripted :=
  mkScripted 0 (fun _ => [mkBalanceRow "USDC" 115 0]) ueth_mids (fun _ => ok_reply).

(** 100 USDC in total, of which 99.5 are held by resting orders. *)
Definition mostly_held : Scripted :=
  mkScripted 0 (fun _ => [mkBalanceRow "USDC" 100 (995 # 10)]) ueth_mids
    (fun _ => ok_reply).

(** The venue rejects the fifth order it receives, that is the buy of round
    trip #3. *)
Definition third_fails : Scripted :=
  mkScripted 0 (fun _ => [mkBalanceRow "USDC" 115 0]) ueth_mids
    (fun k => if (k =? 4)%nat then err_reply else ok_reply).

(** The venue takes its fee out of the UETH it credits (0.0383 bought,
    0.03827319 credited, none held before) and rejects the second order. *)
Definition fee_in_base : Scripted :=
  mkScripted 0
    (fun k => match k with
              | O => [mkBalanceRow "USDC" 115 0]
              | _ => [mkBalanceRow "USDC" (1 # 10) 0;
                      mkBalanceRow "UETH" (3827319 # 100000000) 0]
              end)
    ueth_mids (fun k => if (k =? 0)%nat then ok_reply else err_reply).

(** The account the scripted runs trade for. *)
Definition account : string := "0xabc".

(** The scripted venue once it has received [k] orders. *)
Definition after_orders (w : Scripted) (k : nat) : Scripted :=
  mkScripted k (book w) (mids w) (replies w).

(** The locals of [ueth_roundtrip_trade.py] after the buy on [partial_fill]. *)
Definition partial_fill_locals : UethRoundtripTrade.Locals :=
  UethRoundtripTrade.mkLocals "@151" 3000 115 (1 # 1000) (383 # 10000)
    (1 # 10) (3897 # 100000).

(** The same on [never_fills]: no UETH row before or after the buy. *)
Definition never_fills_locals : UethRoundtripTrade.Locals :=
  UethRoundtripTrade.mkLocals "@151" 3000 115 0 (383 # 10000) 115 0.

(** ** [examples/ubtc_roundtrip_trade.py] *)

Module UbtcRoundtripTrade.

Record Report := mkReport {
  actual_ubtc_bought : Q;
  ubtc_sold : Q;
  usdc_spent : Q;
  usdc_received : Q;
  net_usdc_change : Q;
  total_volume : Q
}.

Inductive Outcome :=
| Completed (r : Report)
| TradeFailed (e : exn).

Section Script.
Context {W : Type} `{Venue W}.

(** The loop of [find_usde_usdc_pair] and the [raise] after it: the code of
    [find_ueth_usdc_pair] with ["USDE/USDC"] for the pair sought. *)
Fixpoint find_pair_loop (spot_meta : SpotMeta) (rest : list AssetInfo)
  : M W (string * string) :=
  match rest with
  | [] => raise (Exception Pair_not_found)
  | asset_info :: rest' =>
      let name := asset_name asset_info in
      let tokens_ := asset_tokens asset_info in
      t0 <- index tokens_ 0 ;;
      base_token <- index (tokens spot_meta) t0 ;;
      t1 <- index tokens_ 1 ;;
      quote_token <- index (tokens spot_meta) t1 ;;
      let pair_name := (token_name base_token ++ "/" ++ token_name quote_token)%string in
      if String.eqb pair_name "USDE/USDC" then ret (name, pair_name)
      else find_pair_loop spot_meta rest'
  end.

Definition find_usde_usdc_pair : M W (string * string) :=
  spot_meta <- info_spot_meta ;;
  find_pair_loop spot_meta (universe spot_meta).

(** The inner [try] around the fee estimate (no division in this script). *)
Definition fee_report (address : string) (net_usdc_change total_volume : Q) : M W unit :=
  try_except
    (user_fees_data <- info_user_fees address ;;
     let taker_fee_rate := userCrossRate user_fees_data in
     let estimated_fees := total_volume * taker_fee_rate in
     let spread_loss := - net_usdc_change - estimated_fees in
     ret tt)
    (fun e => ret tt).

(** The [try] block of [main].  The names [estimated_ubtc_amount] (first
    read by the print of line 96), [ubtc_asset] and [initial_ubtc] are bound
    nowhere in the script: reading them raises [NameError]. *)
Definition main_body (address : string) : M W Report :=
  found <- find_usde_usdc_pair ;;
  let usde_asset := fst found in
  all_mids <- info_all_mids ;;
  usde_price <- getitem all_mids usde_asset ;;
  initial_usdc <- get_balance address "USDC" ;;
  initial_usde <- get_balance address "USDE" ;;
  let trade_usdc_amount := initial_usdc in
  estimated_usde_amount <- truediv trade_usdc_amount usde_price ;;
  if Qlt_le_dec trade_usdc_amount 1
  then raise (Exception (Insufficient_USDC_balance initial_usdc))
  else
  estimated_ubtc_amount <- unbound "estimated_ubtc_amount" ;;
  ubtc_asset <- unbound "ubtc_asset" ;;
  buy_result <- exchange_market_open ubtc_asset true estimated_ubtc_amount (1 # 1000) ;;
  if negb (String.eqb (status buy_result) "ok")
  then raise (Exception (Buy_failed buy_result))
  else
  wait_for_fill address 5 ;;;
  usdc_after_buy <- get_balance address "USDC" ;;
  ubtc_after_buy <- get_balance address "UBTC" ;;
  initial_ubtc <- unbound "initial_ubtc" ;;
  let actual_ubtc_bought := ubtc_after_buy - initial_ubtc in
  let usdc_spent := initial_usdc - usdc_after_buy in
  if Qle_bool actual_ubtc_bought 0 then raise (Exception No_base_received)
  else
  effective_buy_price <- truediv usdc_spent actual_ubtc_bought ;;
  sell_result <- exchange_market_open ubtc_asset false actual_ubtc_bought (1 # 1000) ;;
  if negb (String.eqb (status sell_result) "ok")
  then raise (Exception (Sell_failed sell_result))
  else
  wait_for_fill address 5 ;;;
  final_usdc <- get_balance address "USDC" ;;
  final_ubtc <- get_balance address "UBTC" ;;
  let usdc_received := final_usdc - usdc_after_buy in
  let ubtc_sold := ubtc_after_buy - final_ubtc in
  effective_sell_price <- truediv usdc_received ubtc_sold ;;
  let net_usdc_change := final_usdc - initial_usdc in
  let total_volume := usdc_spent + usdc_received in
  fee_report address net_usdc_change total_volume ;;;
  ret (mkReport actual_ubtc_bought ubtc_sold usdc_spent usdc_received
         net_usdc_change total_volume).

Definition main (address : string) : M W Outcome :=
  try_except
    (r <- main_body address ;; ret (Completed r))
    (fun e => ret (TradeFailed e)).

End Script.
End UbtcRoundtripTrade.

(** ** A scripted venue with its own instrument table *)

Record Listed := mkListed {
  listing : SpotMeta;
  desk : Scripted
}.

#[export] Instance listed_venue : Venue Listed := {
  venue_spot_meta w := (Answer (listing w), w);
  venue_spot_user_state a w :=
    (fst (venue_spot_user_state a (desk w)), mkListed (listing w) (desk w));
  venue_all_mids w := (Answer (mids (desk w)), w);
  venue_user_fills _ w := (Answer [], w);
  venue_user_fees _ w := (Answer (mkUserFees (7 # 10000)), w);
  venue_market_open o w :=
    (fst (venue_market_open o (desk w)),
     mkListed (listing w) (snd (venue_market_open o (desk w))));
  venue_sleep _ w := w
}.

(** A fresh run on a venue with the instrument table [l]. *)
Definition open_listed (l : SpotMeta) (w : Scripted) : St Listed :=
  mkSt (mkListed l w) [].

(** No UETH/USDC instrument is listed. *)
Definition no_ueth_listing : SpotMeta :=
  mkSpotMeta
    [mkAssetInfo "PURR/USDC" [1; 0]%nat; mkAssetInfo "@150" [2; 0]%nat]
    [mkTokenInfo "USDC"; mkTokenInfo "PURR"; mkTokenInfo "USDE"].

(** The first instrument names a token that is not in the token table; the
    second one is UETH/USDC. *)
Definition broken_listing : SpotMeta :=
  mkSpotMeta
    [mkAssetInfo "@7" [9; 0]%nat; mkAssetInfo "@151" [1; 0]%nat]
    [mkTokenInfo "USDC"; mkTokenInfo "UETH"].


(** 115 USDC and a mid of 1 for the USDE/USDC instrument of
    [no_ueth_listing]. *)
Definition usde_desk : Scripted :=
  mkScripted 0 (fun _ => [mkBalanceRow "USDC" 115 0]) {[ "@150" := 1 ]}
    (fun _ => ok_reply).

(** Two rows for USDC: 115 first, 7 second. *)
Definition two_rows : Scripted :=
  mkScripted 0
    (fun _ => [mkBalanceRow "UETH" 2 0; mkBalanceRow "USDC" 115 (5 # 1);
               mkBalanceRow "USDC" 7 0])
    ueth_mids (fun _ => ok_reply).

(** The buy is accepted, the sell is rejected; balances as on [partial_fill]. *)
Definition sell_rejected : Scripted :=
  mkScripted 0 (book partial_fill) ueth_mids
    (fun k => if (k =? 1)%nat then err_reply else ok_reply).

(** No mid price is published for the instrument. *)
Definition no_mid : Scripted :=
  mkScripted 0 (fun _ => [mkBalanceRow "USDC" 115 0]) ∅ (fun _ => ok_reply).

(** ** Reading the instrument table *)

(** The display name the lookup loop derives for one instrument, when its
    two token indices are there and point into the token table. *)
Definition pair_name_of (spot_meta : SpotMeta) (asset_info : AssetInfo) : option string :=
  t0 ← asset_tokens asset_info !! 0%nat;
  base_token ← tokens spot_meta !! t0;
  t1 ← asset_tokens asset_info !! 1%nat;
  quote_token ← tokens spot_meta !! t1;
  Some (token_name base_token ++ "/" ++ token_name quote_token)%string.

(** * Properties *)

(** ** Traces *)

Lemma orders_app t1 t2 : orders (t1 ++ t2) = orders t1 ++ orders t2.
Proof.
  induction t1 as [|[o|k n] t1 IH]; simpl; [done| |done].
  by rewrite IH.
Qed.

Lemma banners_app t1 t2 : banners (t1 ++ t2) = banners t1 ++ banners t2.
Proof.
  induction t1 as [|[o|k n] t1 IH]; simpl; [done|done|].
  by rewrite IH.
Qed.

Lemma orders_map_EvOrder os : orders (map EvOrder os) = os.
Proof. induction os as [|o os IH]; simpl; [done|by rewrite IH]. Qed.

Lemma banners_map_EvOrder os : banners (map EvOrder os) = [].
Proof. induction os as [|o os IH]; simpl; done. Qed.

Ltac unfold_py :=
  cbv beta delta [bind ret raise try_except emit call unbound truediv getitem index
    info_spot_meta info_spot_user_state info_all_mids info_user_fills info_user_fees
    time_sleep exchange_market_open get_balance wait_for_fill].

Ltac exec_step :=
  cbv beta; cbn [fst snd world trace negb];
  match goal with
  | |- context [@venue_spot_user_state _ _ ?a ?w] =>
      destruct (venue_spot_user_state a w) as [[?rows|?ex] ?w1] eqn:?
  | |- context [@venue_all_mids _ _ ?w] =>
      destruct (venue_all_mids w) as [[?m|?ex] ?w1] eqn:?
  | |- context [@venue_market_open _ _ ?o ?w] =>
      destruct (venue_market_open o w) as [[?reply|?ex] ?w1] eqn:?
  | |- context [@venue_user_fills _ _ ?a ?w] =>
      destruct (venue_user_fills a w) as [[?fills|?ex] ?w1] eqn:?
  | |- context [@venue_user_fees _ _ ?a ?w] =>
      destruct (venue_user_fees a w) as [[?fees|?ex] ?w1] eqn:?
  | |- context [@venue_spot_meta _ _ ?w] =>
      destruct (venue_spot_meta w) as [[?meta|?ex] ?w1] eqn:?
  | |- context [Qlt_le_dec ?a ?b] => destruct (Qlt_le_dec a b) as [?|?]
  | |- context [Qle_bool ?a ?b] => destruct (Qle_bool a b) eqn:?
  | |- context [Qeq_bool ?a ?b] => destruct (Qeq_bool a b) eqn:?
  | |- context [String.eqb ?a ?b] => destruct (String.eqb a b) eqn:?
  | |- context [@lookup string ?A (gmap string ?A) _ ?k ?d] =>
      destruct (d !! k) as [?v|] eqn:?
  | |- context [@lookup nat ?A (list ?A) _ ?i ?l] =>
      destruct (l !! i) as [?v|] eqn:?
  end; cbn [fst snd world trace negb].

Ltac exec := unfold_py; cbn [fst snd world trace negb]; repeat exec_step.

(** Identify two answers to the same query. *)
Ltac same_answer :=
  repeat match goal with
  | H : (_, _) = (_, _) |- _ => inversion H; clear H; subst
  | H1 : ?f = Some _, H2 : ?f = _ |- _ =>
      rewrite H1 in H2; inversion H2; clear H2; subst
  end.

(** ** The batch script: one round trip *)

Section BatchTrip.
Context {W : Type} `{Venue W}.
Import Ueth50Roundtrips Ueth50Runs.

Lemma trip_trace address ueth_asset k n (s : St W) :
  ∃ os, trace (snd (execute_single_roundtrip address ueth_asset k n s))
        = trace s ++ EvBanner k n :: map EvOrder os
        ∧ roundtrip_orders os.
Proof.
  unfold execute_single_roundtrip. exec.
  all: try (exists []; split; [done|constructor]).
  all: rewrite <- ?app_assoc; simpl.
  all: try (eexists [_]; split; [reflexivity|constructor]).
  all: try (eexists [_; _]; split; [reflexivity|constructor]).
Qed.

(** Every order the batch round trip places has a size rounded down by
    [floor4]. *)
Lemma trip_orders_are_rounded address ueth_asset k n (s : St W) :
  ∃ os, trace (snd (execute_single_roundtrip address ueth_asset k n s))
        = trace s ++ EvBanner k n :: map EvOrder os
        ∧ Forall (λ o, ∃ usdc_before ueth_price,
                    ¬ ueth_price == 0 ∧ 1 <= usdc_before
                    ∧ sz o = floor4 (usdc_before / ueth_price)) os.
Proof.
  unfold execute_single_roundtrip. exec.
  all: try (exists []; split; [done|constructor]).
  all: rewrite <- ?app_assoc; simpl.
  all: assert (∀ x : Q, Qeq_bool x 0 = false → ¬ x == 0) as Hnz
    by (intros x Hx Hc; apply Qeq_bool_iff in Hc; congruence).
  all: try (eexists [_]; split; [reflexivity|]; repeat constructor; eauto 6).
  all: try (eexists [_; _]; split; [reflexivity|]; repeat constructor; eauto 6).
Qed.

Lemma trip_returns address ueth_asset k n (s : St W) :
  ∃ r, execute_single_roundtrip address ueth_asset k n s
       = (Returns r, snd (execute_single_roundtrip address ueth_asset k n s))
       ∧ (success r = true ∨
          (success r = false ∧ volume r = 0 ∧ cost r = 0 ∧ is_Some (error r))).
Proof.
  unfold execute_single_roundtrip. exec.
  all: eexists; split; [reflexivity|]; cbn; eauto 6.
Qed.

Lemma trip_banner address ueth_asset k n (s : St W) :
  banners (trace (snd (execute_single_roundtrip address ueth_asset k n s)))
  = banners (trace s) ++ [(k, n)].
Proof.
  destruct (trip_trace address ueth_asset k n s) as (os & -> & _).
  rewrite banners_app. simpl. by rewrite banners_map_EvOrder.
Qed.


Lemma after_trips_app address ueth_asset n l1 l2 (s : St W) :
  after_trips address ueth_asset n (l1 ++ l2) s
  = after_trips address ueth_asset n l2 (after_trips address ueth_asset n l1 s).
Proof. revert s. induction l1 as [|i l1 IH]; intros s; simpl; [done|apply IH]. Qed.

Lemma after_trips_banners address ueth_asset n l (s : St W) :
  banners (trace (after_trips address ueth_asset n l s))
  = banners (trace s) ++ map (λ i, (i, n)) l.
Proof.
  revert s. induction l as [|i l IH]; intros s; simpl.
  - by rewrite app_nil_r.
  - rewrite IH, trip_banner, <- app_assoc. done.
Qed.

Lemma batch_loop_stops address ueth_asset n pre :
  ∀ x post acc (s : St W),
    (∀ l1 i l2, pre = l1 ++ i :: l2 →
       trip_ok address ueth_asset n i (after_trips address ueth_asset n l1 s) = true) →
    trip_ok address ueth_asset n x (after_trips address ueth_asset n pre s) = false →
    ∃ b, batch_loop address ueth_asset n (pre ++ x :: post) acc s
         = (Returns b, after_trips address ueth_asset n (pre ++ [x]) s)
       ∧ successful_trades b = (successful_trades acc + length pre)%nat
       ∧ failed_trades b = S (failed_trades acc)
       ∧ length (trade_results b) = (length (trade_results acc) + S (length pre))%nat.
Proof.
  induction pre as [|i pre IH]; intros x post acc s Hpre Hx.
  - cbn [app after_trips batch_loop length] in *. unfold trip_ok in Hx.
    destruct (trip_returns address ueth_asset x n s) as (r & Hr & _).
    unfold bind. rewrite Hr in Hx |- *. cbn [fst] in Hx. rewrite Hx.
    eexists; split; [reflexivity|]. cbn. rewrite length_app. cbn. lia.
  - pose proof (Hpre [] i pre eq_refl) as Hi. cbn [after_trips] in Hi.
    unfold trip_ok in Hi.
    destruct (trip_returns address ueth_asset i n s) as (r & Hr & _).
    cbn [app batch_loop after_trips]. unfold bind at 1. rewrite Hr in Hi |- *.
    cbn [fst] in Hi. rewrite Hi.
    edestruct (IH x post) as (b & Hb & Hs & Hf & Hl); [| |rewrite Hb].
    + intros l1 j l2 ->. apply (Hpre (i :: l1) j l2 eq_refl).
    + exact Hx.
    + exists b. split; [reflexivity|]. cbn in Hs, Hf, Hl.
      rewrite length_app in Hl. cbn in Hl |- *. lia.
Qed.

End BatchTrip.

(** ** The batch loop stops at the first failure *)

Section BatchStops.
Context {W : Type} `{Venue W}.
Import Ueth50Roundtrips Ueth50Runs.

Lemma seq_split_at (m : nat) l1 i l2 :
  seq 1 m = l1 ++ i :: l2 → i = S (length l1) ∧ l1 = seq 1 (length l1).
Proof.
  intros Heq.
  assert (seq 1 m !! length l1 = Some i) as Hi.
  { rewrite Heq. by rewrite list_lookup_middle. }
  apply lookup_seq in Hi as [-> Hlt]. split; [done|].
  assert (take (length l1) (seq 1 m) = l1) as Ht.
  { rewrite Heq. by rewrite take_app_length. }
  rewrite take_seq in Ht. rewrite Nat.min_l in Ht by lia. done.
Qed.

(** C5. In a batch of [n] round trips, if round trips 1 to [k-1] succeed
    and round trip [k] fails ([1 <= k <= n]), the loop returns with [k-1]
    successes, one failure and [k] results, in the state the [k]-th round
    trip left: the banners printed during the batch are those of round
    trips 1 to [k], so none is attempted after the failure. *)
Theorem batch_stops_at_first_failure address ueth_asset (n k : nat) (s : St W) :
  (1 ≤ k ≤ n)%nat →
  (∀ i, (1 ≤ i < k)%nat →
     trip_ok address ueth_asset n i
       (after_trips address ueth_asset n (seq 1 (i - 1)) s) = true) →
  trip_ok address ueth_asset n k
    (after_trips address ueth_asset n (seq 1 (k - 1)) s) = false →
  ∃ b s',
    run_batch address ueth_asset n s = (Returns b, s')
    ∧ s' = after_trips address ueth_asset n (seq 1 k) s
    ∧ successful_trades b = (k - 1)%nat
    ∧ failed_trades b = 1%nat
    ∧ length (trade_results b) = k
    ∧ banners (trace s') = banners (trace s) ++ map (λ i, (i, n)) (seq 1 k).
Proof.
  intros Hk Hok Hfail. unfold run_batch.
  assert (seq 1 n = seq 1 (k - 1) ++ k :: seq (S k) (n - k)) as ->.
  { replace n with ((k - 1) + S (n - k))%nat at 1 by lia.
    rewrite seq_app. cbn [seq]. do 3 f_equal; lia. }
  assert (seq 1 k = seq 1 (k - 1) ++ [k]) as Hsk.
  { replace k with ((k - 1) + 1)%nat at 1 by lia.
    rewrite seq_app. cbn [seq]. do 2 f_equal. lia. }
  destruct (batch_loop_stops address ueth_asset n (seq 1 (k - 1)) k
              (seq (S k) (n - k)) initial_stats s) as (b & Hb & Hs & Hf & Hl).
  - intros l1 i l2 Heq. destruct (seq_split_at _ _ _ _ Heq) as [-> Hl1].
    assert (length l1 < k - 1)%nat as Hlt.
    { apply (f_equal length) in Heq. rewrite length_seq, length_app in Heq.
      cbn in Heq. lia. }
    rewrite Hl1 at 2. replace (length l1) with (S (length l1) - 1)%nat at 2 by lia.
    apply Hok. lia.
  - exact Hfail.
  - exists b, (after_trips address ueth_asset n (seq 1 k) s).
    rewrite Hsk. split; [exact Hb|]. split; [done|].
    rewrite length_seq in Hs, Hl. cbn in Hs, Hf, Hl.
    repeat split; [lia|lia|lia|].
    rewrite <- Hsk. apply after_trips_banners.
Qed.

End BatchStops.

(** ** The accumulators of the batch loop *)

Section BatchTally.
Context {W : Type} `{Venue W}.
Import Ueth50Roundtrips Ueth50Runs.

(** What one run of the loop adds to the accumulators: the results [rs] it
    appends, one per banner printed; all of them successes, except that the
    last one is the failure when [failed_trades] went up; the totals are the
    sums over the successes. *)
Lemma batch_loop_spec address ueth_asset n nums :
  ∀ acc (s : St W), ∃ b s' rs,
    batch_loop address ueth_asset n nums acc s = (Returns b, s')
    ∧ trade_results b = trade_results acc ++ rs
    ∧ (length rs ≤ length nums)%nat
    ∧ banners (trace s') = banners (trace s) ++ map (λ i, (i, n)) (take (length rs) nums)
    ∧ (successful_trades b + failed_trades b
       = successful_trades acc + failed_trades acc + length rs)%nat
    ∧ (failed_trades b = failed_trades acc ∧ Forall (λ r, success r = true) rs
       ∨ failed_trades b = S (failed_trades acc)
         ∧ ∃ pre r, rs = pre ++ [r] ∧ Forall (λ r, success r = true) pre
                    ∧ success r = false ∧ volume r = 0 ∧ cost r = 0)
    ∧ total_volume b
      = fold_left (λ a r, a + volume r) (List.filter success rs) (total_volume acc)
    ∧ total_cost b
      = fold_left (λ a r, a + cost r) (List.filter success rs) (total_cost acc).
Proof.
  induction nums as [|i nums IH]; intros acc s.
  - exists acc, s, []. cbn. rewrite !app_nil_r. repeat split; auto.
  - cbn [batch_loop]. unfold bind at 1.
    destruct (trip_returns address ueth_asset i n s) as (r & Hr & Hshape).
    rewrite Hr. pose proof (trip_banner address ueth_asset i n s) as Hban.
    set (s1 := snd (execute_single_roundtrip address ueth_asset i n s)) in *.
    destruct (success r) eqn:Hsucc.
    + match goal with
      | |- context [batch_loop _ _ _ _ ?a s1] =>
          destruct (IH a s1)
            as (b & s' & rs & Hb & Hres & Hlen & Hb' & Hcnt & Hlast & Hvol & Hcost)
      end.
      cbn [trade_results successful_trades failed_trades total_volume total_cost] in *.
      exists b, s', (r :: rs). split; [exact Hb|].
      split; [by rewrite Hres, <- app_assoc|].
      split; [cbn; lia|].
      split; [cbn; by rewrite Hb', Hban, <- app_assoc|].
      split; [cbn; lia|].
      split.
      { destruct Hlast as [[Hf Hall]|[Hf (pre & r' & -> & Hall & Hr')]].
        - left. split; [done|]. by constructor.
        - right. split; [done|]. exists (r :: pre), r'. split; [done|].
          split; [by constructor|done]. }
      cbn [List.filter]. rewrite Hsucc. cbn [fold_left]. done.
    + destruct Hshape as [Hs|(_ & Hv & Hc & _)]; [congruence|].
      eexists _, s1, [r]. split; [reflexivity|].
      cbn [trade_results successful_trades failed_trades total_volume total_cost
           length take map List.filter fold_left].
      rewrite Hsucc. cbn [fold_left].
      split; [done|]. split; [lia|]. split; [by rewrite Hban|]. split; [lia|].
      split; [|done].
      right. split; [done|]. exists [], r. by repeat split.
Qed.

(** C6. After the loop has run over the first [j] trade numbers of a batch
    (any [j], so after every step), the number of results recorded equals
    [successful_trades + failed_trades], and both equal the number of round
    trips attempted, counted by the banners printed. *)
Theorem batch_counts_agree address ueth_asset (n j : nat) (s : St W) :
  ∃ b s' attempted,
    batch_loop address ueth_asset n (seq 1 j) initial_stats s = (Returns b, s')
    ∧ banners (trace s') = banners (trace s) ++ map (λ i, (i, n)) (seq 1 attempted)
    ∧ attempted = (successful_trades b + failed_trades b)%nat
    ∧ length (trade_results b) = attempted.
Proof.
  destruct (batch_loop_spec address ueth_asset n (seq 1 j) initial_stats s)
    as (b & s' & rs & Hb & Hres & Hlen & Hban & Hcnt & _).
  cbn in Hres, Hcnt. exists b, s', (length rs).
  split; [exact Hb|]. split; [|split; [lia|by rewrite Hres]].
  rewrite Hban, take_seq. rewrite length_seq in Hlen.
  by rewrite Nat.min_l by lia.
Qed.

(** C10. A batch records at most one failure; when it records one, the
    failed result is the last of [trade_results] and every result before it
    is a success; a failed result carries volume 0 and cost 0, and the
    running totals are the sums over the successful results only. *)
Theorem batch_fails_at_most_once address ueth_asset (n : nat) (s : St W) :
  ∃ b s',
    run_batch address ueth_asset n s = (Returns b, s')
    ∧ (failed_trades b ≤ 1)%nat
    ∧ (failed_trades b = 1%nat →
       ∃ pre r, trade_results b = pre ++ [r]
                ∧ success r = false
                ∧ Forall (λ r', success r' = true) pre)
    ∧ (∀ r, r ∈ trade_results b → success r = false → volume r = 0 ∧ cost r = 0)
    ∧ total_volume b
      = fold_left (λ a r, a + volume r) (List.filter success (trade_results b)) 0
    ∧ total_cost b
      = fold_left (λ a r, a + cost r) (List.filter success (trade_results b)) 0.
Proof.
  unfold run_batch.
  destruct (batch_loop_spec address ueth_asset n (seq 1 n) initial_stats s)
    as (b & s' & rs & Hb & Hres & _ & _ & _ & Hlast & Hvol & Hcost).
  cbn in Hres, Hlast, Hvol, Hcost. subst rs.
  exists b, s'. split; [exact Hb|].
  destruct Hlast as [[Hf Hall]|[Hf (pre & r & Hrs & Hall & Hr & Hv & Hc)]].
  - split; [lia|]. split; [intros; lia|]. split; [|done].
    intros r Hin Hr. rewrite Forall_forall in Hall.
    specialize (Hall r Hin). congruence.
  - split; [lia|]. split; [intros _; by exists pre, r|]. split; [|done].
    intros r' Hin Hr'. rewrite Hrs in Hin.
    apply elem_of_app in Hin as [Hin|Hin].
    + rewrite Forall_forall in Hall. specialize (Hall r' Hin). congruence.
    + apply list_elem_of_singleton in Hin as ->. done.
Qed.

End BatchTally.

(** ** Reading a balance *)

Section Balance.
Context {W : Type} `{Venue W}.

Lemma scan_balances_absent balances token_name :
  (∀ row, row ∈ balances → coin row ≠ token_name) →
  scan_balances balances token_name = 0.
Proof.
  induction balances as [|row rest IH]; intros Habs; cbn; [done|].
  destruct (String.eqb (coin row) token_name) eqn:E.
  - apply String.eqb_eq in E. exfalso. apply (Habs row); [left|done].
  - apply IH. intros r Hr. apply Habs. by right.
Qed.

(** The balance read is the ["total"] of the first row of that coin; the
    row's ["hold"] plays no part. *)
Lemma scan_balances_first pre row post token_name :
  (∀ r, r ∈ pre → coin r ≠ token_name) →
  coin row = token_name →
  scan_balances (pre ++ row :: post) token_name = total row.
Proof.
  induction pre as [|r pre IH]; intros Hpre Hrow; cbn.
  - apply String.eqb_eq in Hrow. by rewrite Hrow.
  - destruct (String.eqb (coin r) token_name) eqn:E.
    + apply String.eqb_eq in E. exfalso. apply (Hpre r); [left|done].
    + apply IH; [|done]. intros r' Hr'. apply Hpre. by right.
Qed.

Lemma get_balance_run address token_name (s : St W) rows w' :
  venue_spot_user_state address (world s) = (Answer rows, w') →
  get_balance address token_name s
  = (Returns (scan_balances rows token_name), mkSt w' (trace s)).
Proof. intros Hq. unfold_py. by rewrite Hq. Qed.

(** C9. When the venue answers the balance query and no row of the answer
    is for the asset asked, [get_balance] returns 0 (it raises nothing); it
    leaves the trace as it was. *)
Theorem get_balance_absent_is_zero address token_name (s : St W) rows w' :
  venue_spot_user_state address (world s) = (Answer rows, w') →
  (∀ row, row ∈ rows → coin row ≠ token_name) →
  get_balance address token_name s = (Returns 0, mkSt w' (trace s)).
Proof.
  intros Hq Habs. rewrite (get_balance_run _ _ _ _ _ Hq).
  by rewrite scan_balances_absent.
Qed.

End Balance.

(** ** Sizing *)

Lemma floor4_le x : floor4 x <= x.
Proof.
  unfold floor4. pose proof (Qfloor_le (x * 10000)) as Hf.
  apply Qle_shift_div_r; [reflexivity|exact Hf].
Qed.


(** The rounded size is a whole number of 0.0001 increments. *)
Lemma floor4_increment x : floor4 x * 10000 == inject_Z (Qfloor (x * 10000)).
Proof. unfold floor4. field. Qed.


Example floor4_115_at_3000 : floor4 (115 / 3000) == 383 # 10000.
Proof. reflexivity. Qed.

Section BatchSizing.
Context {W : Type} `{Venue W}.
Import Ueth50Roundtrips.

(** C3, as the code has it. The quote balance the batch round trip checks
    and sizes from is the ["total"] of the USDC row, whatever its ["hold"]:
    the round trip fails with the insufficient-funds exception exactly when
    that total is below 1, without placing an order; otherwise, once the
    mid price is read (and is not zero), the first order placed is a buy of
    [floor4 (total / price)]. *)
Theorem sizing_uses_raw_total address ueth_asset (k n : nat) (s : St W)
    pre row post w1 :
  venue_spot_user_state address (world s) = (Answer (pre ++ row :: post), w1) →
  (∀ r', r' ∈ pre → coin r' ≠ "USDC") →
  coin row = "USDC" →
  ∃ r s',
    execute_single_roundtrip address ueth_asset k n s = (Returns r, s')
    ∧ ((∃ q, error r = Some (Exception (Insufficient_USDC q))) ↔ total row < 1)
    ∧ (total row < 1 →
       error r = Some (Exception (Insufficient_USDC (total row)))
       ∧ success r = false
       ∧ orders (trace s') = orders (trace s))
    ∧ (∀ all_mids w2 ueth_price,
         1 <= total row →
         venue_all_mids w1 = (Answer all_mids, w2) →
         all_mids !! ueth_asset = Some ueth_price →
         ¬ ueth_price == 0 →
         ∃ rest, orders (trace s')
                 = orders (trace s)
                   ++ buy_order ueth_asset (floor4 (total row / ueth_price)) :: rest).
Proof.
  intros Hq Hpre Hrow. unfold execute_single_roundtrip. unfold_py.
  cbn [fst snd world trace negb]. rewrite Hq.
  rewrite (scan_balances_first pre row post "USDC" Hpre Hrow).
  cbn [fst snd world trace negb].
  destruct (Qlt_le_dec (total row) 1) as [Hlt|Hge].
  - eexists _, _. split; [reflexivity|]. cbn [error success trace].
    split; [split; [done|by eexists]|].
    split; [intros _; repeat split; rewrite orders_app; cbn; by rewrite app_nil_r|].
    intros ? ? ? Hge. exfalso. lra.
  - repeat exec_step.
    all: eexists _, _; (split; [reflexivity|]); cbn [error success trace].
    all: split; [split; [intros [q Hq']; discriminate Hq'|intros Hlt; exfalso; lra]|].
    all: split; [intros Hlt; exfalso; lra|].
    all: intros mids' w2' price' _ Hm Hl Hnz.
    all: same_answer; try discriminate.
    all: try (exfalso; apply Hnz; by apply Qeq_bool_iff).
    all: rewrite !orders_app; cbn; rewrite <- ?app_assoc; cbn; by eexists.
Qed.

End BatchSizing.

(** ** The single-trip scripts *)

Section SingleTrip.
Context {W : Type} `{Venue W}.
Import UethRoundtripTrade.

Lemma find_pair_loop_pure spot_meta rest (s : St W) :
  ∃ r, find_pair_loop spot_meta rest s = (r, s).
Proof.
  induction rest as [|asset_info rest IH]; cbn [find_pair_loop].
  - by eexists.
  - exec; try by eexists. exact IH.
Qed.

Lemma find_pair_trace (s : St W) :
  trace (snd (find_ueth_usdc_pair s)) = trace s.
Proof.
  unfold find_ueth_usdc_pair. exec; [|done].
  match goal with
  | |- context [find_pair_loop ?m ?l ?s0] =>
      destruct (find_pair_loop_pure m l s0) as [r ->]
  end.
  by destruct r.
Qed.

Lemma main_run address (s : St W) :
  main address s
  = match buy_leg address s with
    | (Raises e, s1) => (Returns (TradeFailed e), s1)
    | (Returns l, s1) =>
        match sell_leg address l s1 with
        | (Returns r, s2) => (Returns (Completed r), s2)
        | (Raises e, s2) => (Returns (TradeFailed e), s2)
        end
    end.
Proof.
  unfold main, main_body, try_except, bind, ret.
  destruct (buy_leg address s) as [[l|e] s1]; [|done].
  by destruct (sell_leg address l s1) as [[r|e] s2].
Qed.

Ltac exec_find_pair :=
  match goal with
  | |- context [@find_ueth_usdc_pair _ _ ?s] =>
      let Hft := fresh "Hft" in
      pose proof (find_pair_trace s) as Hft;
      destruct (find_ueth_usdc_pair s) as [[[? ?]|?] ?];
      cbn [fst snd] in Hft |- *
  end.

Ltac exec_leg :=
  unfold_py; unfold fee_report; unfold_py;
  cbn [fst snd world trace negb]; try exec_find_pair; repeat exec_step.

(** What the buy leg leaves when it returns: the one order placed is the
    buy of the rounded size, computed from the USDC balance and the mid. *)
Lemma buy_leg_spec address (s : St W) l s1 :
  buy_leg address s = (Returns l, s1) →
  trace s1 = trace s ++ [EvOrder (buy_order (ueth_asset l) (ueth_trade_amount l))]
  ∧ ueth_trade_amount l = floor4 (initial_usdc l / ueth_price l)
  ∧ 1 <= initial_usdc l.
Proof.
  unfold buy_leg. exec_leg.
  all: intros Hb; inversion Hb; subst; clear Hb.
  cbn. rewrite Hft. done.
Qed.

Lemma buy_leg_failed address (s : St W) e s1 :
  buy_leg address s = (Raises e, s1) →
  trace s1 = trace s ∨ ∃ asset q, trace s1 = trace s ++ [EvOrder (buy_order asset q)].
Proof.
  unfold buy_leg. exec_leg.
  all: intros Hb; inversion Hb; subst; clear Hb; cbn; rewrite ?Hft; eauto.
Qed.

(** The sell leg places no order when no UETH was received. *)
Lemma sell_leg_no_fill address l (s1 : St W) :
  ueth_after_buy l - initial_ueth l <= 0 →
  sell_leg address l s1 = (Raises (Exception No_base_received), s1).
Proof.
  intros Hle. unfold sell_leg.
  apply Qle_bool_iff in Hle. by rewrite Hle.
Qed.

(** Otherwise its one order is the sell of [ueth_trade_amount], the size of
    the buy order, placed before anything else happens. *)
Lemma sell_leg_confirmed address l (s1 : St W) :
  0 < ueth_after_buy l - initial_ueth l →
  trace (snd (sell_leg address l s1))
  = trace s1 ++ [EvOrder (sell_order (ueth_asset l) (ueth_trade_amount l))].
Proof.
  intros Hpos. unfold sell_leg.
  destruct (Qle_bool (ueth_after_buy l - initial_ueth l) 0) eqn:Hle.
  { apply Qle_bool_iff in Hle. exfalso. lra. }
  unfold truediv at 1.
  destruct (Qeq_bool (ueth_after_buy l - initial_ueth l) 0) eqn:Hz.
  { apply Qeq_bool_iff in Hz. exfalso. lra. }
  exec_leg; done.
Qed.

Lemma sell_leg_report address l (s1 : St W) r s2 :
  sell_leg address l s1 = (Returns r, s2) →
  locals r = l
  ∧ 0 < actual_ueth_bought r
  ∧ actual_ueth_bought r = ueth_after_buy l - initial_ueth l
  ∧ usdc_spent r = initial_usdc l - usdc_after_buy l
  ∧ usdc_received r = final_usdc r - usdc_after_buy l
  ∧ net_usdc_change r = final_usdc r - initial_usdc l
  ∧ total_volume r = usdc_spent r + usdc_received r.
Proof.
  unfold sell_leg.
  destruct (Qle_bool (ueth_after_buy l - initial_ueth l) 0) eqn:Hle.
  { unfold raise. discriminate. }
  assert (0 < ueth_after_buy l - initial_ueth l) as Hpos.
  { apply Qnot_le_lt. intros Hc. apply Qle_bool_iff in Hc. congruence. }
  exec_leg.
  all: intros Hr; inversion Hr; subst; clear Hr; cbn; done.
Qed.

(** C4, as the code has it. In [ueth_roundtrip_trade.py], once the buy
    leg has returned with a positive observed UETH delta, the script goes
    on to place a sell order, and nothing else: the orders of the run are
    the buy and the sell, both of [ueth_trade_amount], the size requested
    in the buy (the observed delta does not size the sell). *)
Theorem confirmed_buy_is_followed_by_sell address (s : St W) l s1 :
  buy_leg address s = (Returns l, s1) →
  0 < ueth_after_buy l - initial_ueth l →
  ∃ out s2,
    main address s = (Returns out, s2)
    ∧ trace s2
      = trace s ++ [EvOrder (buy_order (ueth_asset l) (ueth_trade_amount l));
                    EvOrder (sell_order (ueth_asset l) (ueth_trade_amount l))].
Proof.
  intros Hb Hpos. rewrite main_run, Hb.
  pose proof (sell_leg_confirmed address l s1 Hpos) as Hs.
  destruct (buy_leg_spec address s l s1 Hb) as (Ht & _).
  destruct (sell_leg address l s1) as [[r|e] s2]; cbn [snd] in Hs.
  all: eexists _, _; split; [reflexivity|].
  all: by rewrite Hs, Ht, <- app_assoc.
Qed.

(** [usde_roundtrip_trade.py] never gets to its sell order: the run that
    places the buy stops at the unbound name [initial_usde]. *)
Lemma usde_never_sells address (s : St W) :
  ∃ e s',
    UsdeRoundtripTrade.main address s = (Returns (UsdeRoundtripTrade.TradeFailed e), s')
    ∧ (trace s' = trace s
       ∨ ∃ asset q, trace s' = trace s ++ [EvOrder (buy_order asset q)]
                    ∧ (e = NameError "initial_usde"
                       ∨ (∃ detail, e = SdkError detail)
                       ∨ (∃ reply, e = Exception (Buy_failed reply)))).
Proof.
  unfold UsdeRoundtripTrade.main, UsdeRoundtripTrade.main_body.
  unfold_py. cbn [fst snd world trace negb]. exec_find_pair. all: repeat exec_step.
  all: eexists _, _; (split; [reflexivity|]); cbn [trace]; rewrite ?Hft; eauto 10.
Qed.

End SingleTrip.

(** ** Which size is sold, and when *)

Section Legs.
Context {W : Type} `{Venue W}.

(** C1, as the code has it. In both UETH scripts the orders of a round trip
    are none, a buy, or a buy followed by a sell of the same size: the sell
    is sized by the amount requested in the buy.  When
    [ueth_roundtrip_trade.py] completes, that size is
    [floor4 (initial_usdc / ueth_price)], and the observed delta
    [actual_ueth_bought] is only reported. *)
Theorem sell_size_is_buy_size address :
  (∀ s : St W, ∃ os,
     trace (snd (UethRoundtripTrade.main address s)) = trace s ++ map EvOrder os
     ∧ roundtrip_orders os)
  ∧ (∀ (s : St W) r s',
       UethRoundtripTrade.main address s = (Returns (UethRoundtripTrade.Completed r), s') →
       let l := UethRoundtripTrade.locals r in
       let q := floor4 (UethRoundtripTrade.initial_usdc l / UethRoundtripTrade.ueth_price l) in
       trace s' = trace s ++ [EvOrder (buy_order (UethRoundtripTrade.ueth_asset l) q);
                              EvOrder (sell_order (UethRoundtripTrade.ueth_asset l) q)]
       ∧ UethRoundtripTrade.actual_ueth_bought r
         = UethRoundtripTrade.ueth_after_buy l - UethRoundtripTrade.initial_ueth l)
  ∧ (∀ ueth_asset k n (s : St W), ∃ os,
       trace (snd (Ueth50Roundtrips.execute_single_roundtrip address ueth_asset k n s))
       = trace s ++ EvBanner k n :: map EvOrder os
       ∧ roundtrip_orders os).
Proof.
  split; [|split].
  - intros s. rewrite main_run.
    destruct (UethRoundtripTrade.buy_leg address s) as [[l|e] s1] eqn:Hb.
    + destruct (buy_leg_spec address s l s1 Hb) as (Ht & _).
      destruct (Qlt_le_dec 0 (UethRoundtripTrade.ueth_after_buy l
                              - UethRoundtripTrade.initial_ueth l)) as [Hpos|Hle].
      * pose proof (sell_leg_confirmed address l s1 Hpos) as Hs.
        eexists [_; _].
        destruct (UethRoundtripTrade.sell_leg address l s1) as [[r|e] s2];
          cbn [snd] in *; rewrite Hs, Ht, <- app_assoc; (split; [reflexivity|constructor]).
      * rewrite (sell_leg_no_fill address l s1 Hle). cbn [snd].
        eexists [_]. rewrite Ht. split; [reflexivity|constructor].
    + cbn [snd]. destruct (buy_leg_failed address s e s1 Hb) as [Ht|(a & q & Ht)].
      * exists []. rewrite Ht, app_nil_r. split; [done|constructor].
      * eexists [_]. rewrite Ht. split; [reflexivity|constructor].
  - intros s r s' Hm. rewrite main_run in Hm.
    destruct (UethRoundtripTrade.buy_leg address s) as [[l|e] s1] eqn:Hb; [|discriminate].
    destruct (buy_leg_spec address s l s1 Hb) as (Ht & Hq & _).
    destruct (UethRoundtripTrade.sell_leg address l s1) as [[r'|e] s2] eqn:Hs;
      inversion Hm; subst; clear Hm.
    destruct (sell_leg_report address l s1 r s' Hs) as (Hl & Hpos & Hdelta & _).
    cbn zeta. rewrite Hl, <- Hq. split; [|exact Hdelta].
    rewrite Hdelta in Hpos.
    pose proof (sell_leg_confirmed address l s1 Hpos) as Hs'.
    rewrite Hs in Hs'. cbn [snd] in Hs'. by rewrite Hs', Ht, <- app_assoc.
  - intros ueth_asset k n s. apply trip_trace.
Qed.

(** C8, as the code has it. In [ueth_roundtrip_trade.py], when the UETH
    delta observed after the wait that follows the buy is not positive, the
    run ends there with the no-fill exception: the only order placed is the
    buy.  The round trip of the batch script never raises that exception. *)
Theorem no_fill_fails_before_sell address :
  (∀ (s : St W) l s1,
     UethRoundtripTrade.buy_leg address s = (Returns l, s1) →
     UethRoundtripTrade.ueth_after_buy l - UethRoundtripTrade.initial_ueth l <= 0 →
     UethRoundtripTrade.main address s
     = (Returns (UethRoundtripTrade.TradeFailed (Exception No_base_received)), s1)
     ∧ trace s1
       = trace s ++ [EvOrder (buy_order (UethRoundtripTrade.ueth_asset l)
                                        (UethRoundtripTrade.ueth_trade_amount l))])
  ∧ (∀ ueth_asset k n (s : St W) r s',
       Ueth50Roundtrips.execute_single_roundtrip address ueth_asset k n s = (Returns r, s') →
       Ueth50Roundtrips.error r ≠ Some (Exception No_base_received)).
Proof.
  split.
  - intros s l s1 Hb Hle. rewrite main_run, Hb, (sell_leg_no_fill address l s1 Hle).
    split; [done|]. by destruct (buy_leg_spec address s l s1 Hb) as (Ht & _).
  - intros ueth_asset k n s r s'. unfold Ueth50Roundtrips.execute_single_roundtrip.
    exec. all: intros Hr; inversion Hr; subst; clear Hr; cbn; discriminate.
Qed.

(** C2, as the code has it. [ueth_roundtrip_trade.py] reports the volume
    [usdc_spent + usdc_received] and the net cost [- net_usdc_change], which
    is [usdc_spent - usdc_received], both from the USDC balances read before
    the buy, after the buy and after the sell.  The batch script reads the
    USDC balance before and after the round trip only: its cost is their
    difference (which is spent minus received whatever the balance in
    between was) and its volume is the estimate [size * mid * 2]. *)
Theorem volume_and_cost address :
  (∀ (s : St W) r s',
     UethRoundtripTrade.main address s = (Returns (UethRoundtripTrade.Completed r), s') →
     let l := UethRoundtripTrade.locals r in
     UethRoundtripTrade.total_volume r
     = UethRoundtripTrade.usdc_spent r + UethRoundtripTrade.usdc_received r
     ∧ - UethRoundtripTrade.net_usdc_change r
       == UethRoundtripTrade.usdc_spent r - UethRoundtripTrade.usdc_received r
     ∧ UethRoundtripTrade.usdc_spent r
       = UethRoundtripTrade.initial_usdc l - UethRoundtripTrade.usdc_after_buy l
     ∧ UethRoundtripTrade.usdc_received r
       = UethRoundtripTrade.final_usdc r - UethRoundtripTrade.usdc_after_buy l)
  ∧ (∀ ueth_asset k n (s : St W) rows w1 r s',
       venue_spot_user_state address (world s) = (Answer rows, w1) →
       Ueth50Roundtrips.execute_single_roundtrip address ueth_asset k n s = (Returns r, s') →
       Ueth50Roundtrips.success r = true →
       let usdc_before := scan_balances rows "USDC" in
       ∃ usdc_after amount price,
         Ueth50Roundtrips.usdc_remaining r = Some usdc_after
         ∧ Ueth50Roundtrips.ueth_amount r = Some amount
         ∧ Ueth50Roundtrips.ueth_price r = Some price
         ∧ amount = floor4 (usdc_before / price)
         ∧ Ueth50Roundtrips.volume r = amount * price * 2
         ∧ Ueth50Roundtrips.cost r = usdc_before - usdc_after
         ∧ ∀ usdc_between,
             Ueth50Roundtrips.cost r
             == (usdc_before - usdc_between) - (usdc_after - usdc_between)).
Proof.
  split.
  - intros s r s' Hm. rewrite main_run in Hm.
    destruct (UethRoundtripTrade.buy_leg address s) as [[l|e] s1] eqn:Hb; [|discriminate].
    destruct (UethRoundtripTrade.sell_leg address l s1) as [[r'|e] s2] eqn:Hs;
      inversion Hm; subst; clear Hm.
    destruct (sell_leg_report address l s1 r s' Hs)
      as (Hl & _ & _ & Hspent & Hrecv & Hnet & Hvol).
    cbn zeta. rewrite Hl. repeat split; try done.
    rewrite Hnet, Hspent, Hrecv. ring.
  - intros ueth_asset k n s rows w1 r s' Hq.
    unfold Ueth50Roundtrips.execute_single_roundtrip. unfold_py.
    cbn [fst snd world trace negb]. rewrite Hq. repeat exec_step.
    all: intros Hr; inversion Hr; subst; clear Hr; cbn; try discriminate.
    intros _. eexists _, _, _. repeat split. intros usdc_between. ring.
Qed.

End Legs.

(** ** Runs on the scripted venue *)

(** C1, against the claim as stated. On [partial_fill] the buy of 0.0383
    UETH is observed as a delta of 0.03797; the sell order is for 0.0383,
    the requested size, not for the observed delta. *)
Lemma sell_size_differs_from_observed_delta :
  ∃ r s',
    UethRoundtripTrade.main account (start partial_fill)
    = (Returns (UethRoundtripTrade.Completed r), s')
    ∧ UethRoundtripTrade.actual_ueth_bought r == 3797 # 100000
    ∧ orders (trace s') = [buy_order "@151" (383 # 10000); sell_order "@151" (383 # 10000)]
    ∧ ¬ (383 # 10000 == UethRoundtripTrade.actual_ueth_bought r).
Proof.
  eexists _, _. split; [vm_compute; reflexivity|].
  split; [reflexivity|]. split; [reflexivity|].
  intros Hq. vm_compute in Hq. discriminate Hq.
Qed.

(** C2, against the claim as stated. On [partial_fill] the batch round trip
    spends 114.9 USDC on the buy and receives 114.7 from the sell, 229.6 in
    all; the volume it returns is 229.8, twice the size at the mid. *)
Lemma batch_volume_is_an_estimate :
  ∃ r s',
    Ueth50Roundtrips.execute_single_roundtrip account "@151" 1 50 (start partial_fill)
    = (Returns r, s')
    ∧ Ueth50Roundtrips.success r = true
    ∧ Ueth50Roundtrips.volume r == 2298 # 10
    ∧ let usdc k := scan_balances (book partial_fill k) "USDC" in
      let quote_spent := usdc 0%nat - usdc 1%nat in
      let quote_received := usdc 2%nat - usdc 1%nat in
      quote_spent + quote_received == 2296 # 10
      ∧ ¬ (Ueth50Roundtrips.volume r == quote_spent + quote_received)
      ∧ Ueth50Roundtrips.cost r == quote_spent - quote_received.
Proof.
  eexists _, _. split; [vm_compute; reflexivity|].
  split; [reflexivity|]. split; [reflexivity|]. cbn zeta.
  split; [reflexivity|]. split; [|reflexivity].
  intros Hq. vm_compute in Hq. discriminate Hq.
Qed.

(** C3, against the claim as stated. On [mostly_held] the USDC available is
    100 - 99.5 = 0.5, below the minimum of 1, yet the round trip does not
    fail for lack of funds: it buys [floor4 (100 / 3000)] = 0.0333 UETH,
    sized from the total. *)
Lemma held_funds_are_not_subtracted :
  ∃ row r s',
    book mostly_held 0 = [row]
    ∧ coin row = "USDC"
    ∧ total row - hold row < 1
    ∧ Ueth50Roundtrips.execute_single_roundtrip account "@151" 1 50 (start mostly_held)
      = (Returns r, s')
    ∧ Ueth50Roundtrips.success r = true
    ∧ orders (trace s') = [buy_order "@151" (333 # 10000); sell_order "@151" (333 # 10000)]
    ∧ floor4 (total row / 3000) == 333 # 10000
    ∧ floor4 ((total row - hold row) / 3000) == 1 # 10000.
Proof.
  eexists _, _, _. split; [reflexivity|]. split; [reflexivity|].
  split; [reflexivity|]. split; [vm_compute; reflexivity|].
  repeat split; vm_compute; reflexivity.
Qed.

(** C4, against the claim as stated. On [fee_in_base] the buy is confirmed
    by a delta of 0.03827319 UETH; the sell placed is for 0.0383, no order
    is for the confirmed quantity, the venue rejects the sell and the run
    ends with the 0.03827319 UETH still held. *)
Lemma confirmed_buy_leaves_residual :
  ∃ l s1 reply s2,
    UethRoundtripTrade.buy_leg account (start fee_in_base) = (Returns l, s1)
    ∧ UethRoundtripTrade.ueth_after_buy l - UethRoundtripTrade.initial_ueth l
      == 3827319 # 100000000
    ∧ UethRoundtripTrade.main account (start fee_in_base)
      = (Returns (UethRoundtripTrade.TradeFailed (Exception (Sell_failed reply))), s2)
    ∧ orders (trace s2) = [buy_order "@151" (383 # 10000); sell_order "@151" (383 # 10000)]
    ∧ ¬ (383 # 10000
         == UethRoundtripTrade.ueth_after_buy l - UethRoundtripTrade.initial_ueth l)
    ∧ fst (get_balance account "UETH" s2) = Returns (3827319 # 100000000).
Proof.
  eexists _, _, _, _. split; [vm_compute; reflexivity|].
  split; [reflexivity|]. split; [vm_compute; reflexivity|].
  split; [reflexivity|]. split; [|reflexivity].
  intros Hq. vm_compute in Hq. discriminate Hq.
Qed.

(** C8, against the claim as stated. On [never_fills] no UETH is ever
    credited (the delta observed after the buy is 0), yet the batch round
    trip places its sell order and returns a success. *)
Lemma batch_trip_sells_without_fill :
  ∃ r s',
    (∀ k, scan_balances (book never_fills k) "UETH" = 0)
    ∧ Ueth50Roundtrips.execute_single_roundtrip account "@151" 1 50 (start never_fills)
      = (Returns r, s')
    ∧ Ueth50Roundtrips.success r = true
    ∧ Ueth50Roundtrips.error r = None
    ∧ orders (trace s') = [buy_order "@151" (383 # 10000); sell_order "@151" (383 # 10000)].
Proof.
  eexists _, _. split; [intros k; reflexivity|].
  split; [vm_compute; reflexivity|]. repeat split; reflexivity.
Qed.

(** C7, where the code departs from the claim. With 115 USDC and a mid of
    3000, [usde_roundtrip_trade.py] places its buy for 115/3000 UETH, the
    unrounded estimate: not 0.0383, and not a multiple of 0.0001. *)
Lemma usde_buys_unrounded_size :
  ∃ out s' q,
    UsdeRoundtripTrade.main account (start partial_fill) = (Returns out, s')
    ∧ orders (trace s') = [buy_order "@151" q]
    ∧ q == 115 / 3000
    ∧ ¬ (q == 383 # 10000)
    ∧ ¬ (q == floor4 q)
    ∧ floor4 (115 / 3000) == 383 # 10000.
Proof.
  eexists _, _, _. split; [vm_compute; reflexivity|].
  split; [reflexivity|]. split; [reflexivity|].
  split; [intros Hq; vm_compute in Hq; discriminate Hq|].
  split; [intros Hq; vm_compute in Hq; discriminate Hq|reflexivity].
Qed.

(** ** The theorems at work on the scripted venue *)

(** A batch of 5 on [third_fails]: round trips #1 and #2 succeed, #3 fails,
    #4 and #5 are not attempted. *)
Lemma batch_of_five_third_fails :
  ∃ b s',
    Ueth50Roundtrips.run_batch account "@151" 5 (start third_fails) = (Returns b, s')
    ∧ s' = Ueth50Runs.after_trips account "@151" 5 [1; 2; 3]%nat (start third_fails)
    ∧ Ueth50Roundtrips.successful_trades b = 2%nat
    ∧ Ueth50Roundtrips.failed_trades b = 1%nat
    ∧ length (Ueth50Roundtrips.trade_results b) = 3%nat
    ∧ banners (trace s') = [(1, 5); (2, 5); (3, 5)]%nat.
Proof.
  apply (batch_stops_at_first_failure (W:=Scripted) account "@151" 5 3 (start third_fails)).
  - lia.
  - intros i Hi. assert (i = 1 ∨ i = 2)%nat as [-> | ->] by lia; vm_compute; reflexivity.
  - vm_compute. reflexivity.
Defined.

(** [never_fills] reports no UETH row: the UETH balance read is 0. *)
Lemma get_balance_of_unheld_asset :
  get_balance account "UETH" (start never_fills) = (Returns 0, start never_fills).
Proof.
  apply (get_balance_absent_is_zero (W:=Scripted) account "UETH" (start never_fills)
           [mkBalanceRow "USDC" 115 0] never_fills).
  - reflexivity.
  - intros row Hin. apply list_elem_of_singleton in Hin as ->. cbn. discriminate.
Defined.

(** On [mostly_held] the buy is sized from the total of 100 USDC. *)
Lemma sizing_on_mostly_held :
  ∃ r s',
    Ueth50Roundtrips.execute_single_roundtrip account "@151" 1 50 (start mostly_held)
    = (Returns r, s')
    ∧ ∃ rest, orders (trace s') = buy_order "@151" (floor4 (100 / 3000)) :: rest.
Proof.
  destruct (sizing_uses_raw_total (W:=Scripted) account "@151" 1 50 (start mostly_held)
              [] (mkBalanceRow "USDC" 100 (995 # 10)) [] mostly_held)
    as (r & s' & Hrun & _ & _ & Hbuy).
  - reflexivity.
  - intros r' Hin. inversion Hin.
  - reflexivity.
  - exists r, s'. split; [exact Hrun|].
    apply (Hbuy ueth_mids mostly_held 3000).
    + vm_compute. discriminate.
    + reflexivity.
    + reflexivity.
    + vm_compute. discriminate.
Defined.

(** On [partial_fill] the confirmed buy is followed by the sell of 0.0383. *)
Lemma sell_follows_on_partial_fill :
  ∃ out s2,
    UethRoundtripTrade.main account (start partial_fill) = (Returns out, s2)
    ∧ trace s2 = [EvOrder (buy_order "@151" (383 # 10000));
                  EvOrder (sell_order "@151" (383 # 10000))].
Proof.
  apply (confirmed_buy_is_followed_by_sell (W:=Scripted) account (start partial_fill)
           partial_fill_locals
           (mkSt (after_orders partial_fill 1) [EvOrder (buy_order "@151" (383 # 10000))])).
  - vm_compute. reflexivity.
  - vm_compute. reflexivity.
Defined.

(** On [partial_fill] the completed run has placed the buy and the sell of
    [floor4 (115 / 3000)]. *)
Lemma orders_on_partial_fill :
  ∃ r s',
    UethRoundtripTrade.main account (start partial_fill)
    = (Returns (UethRoundtripTrade.Completed r), s')
    ∧ trace s' = [EvOrder (buy_order "@151" (floor4 (115 / 3000)));
                  EvOrder (sell_order "@151" (floor4 (115 / 3000)))].
Proof.
  pose proof (proj1 (proj2 (sell_size_is_buy_size (W:=Scripted) account))
                (start partial_fill)) as Hthm.
  eexists _, _. split; [vm_compute; reflexivity|].
  edestruct Hthm as [Ht _]; [vm_compute; reflexivity|].
  exact Ht.
Defined.

(** On [never_fills] the single-trip script stops after its buy. *)
Lemma no_fill_on_never_fills :
  UethRoundtripTrade.main account (start never_fills)
  = (Returns (UethRoundtripTrade.TradeFailed (Exception No_base_received)),
     mkSt (after_orders never_fills 1) [EvOrder (buy_order "@151" (383 # 10000))])
  ∧ trace (mkSt (after_orders never_fills 1) [EvOrder (buy_order "@151" (383 # 10000))])
    = [EvOrder (buy_order "@151" (383 # 10000))].
Proof.
  apply (proj1 (no_fill_fails_before_sell (W:=Scripted) account)
           (start never_fills) never_fills_locals).
  - vm_compute. reflexivity.
  - vm_compute. discriminate.
Defined.

(** The script itself, with its 50 round trips, on [third_fails]: two
    successes, one failure, three results. *)
Example main_stops_at_third_trade :
  ∃ summary s',
    Ueth50Roundtrips.main account (start third_fails)
    = (Returns (Ueth50Roundtrips.Finished summary), s')
    ∧ Ueth50Roundtrips.successful_trades (Ueth50Roundtrips.stats summary) = 2%nat
    ∧ Ueth50Roundtrips.failed_trades (Ueth50Roundtrips.stats summary) = 1%nat
    ∧ length (Ueth50Roundtrips.trade_results (Ueth50Roundtrips.stats summary)) = 3%nat
    ∧ banners (trace s') = [(1, 50); (2, 50); (3, 50)]%nat.
Proof.
  eexists _, _. split; [vm_compute; reflexivity|]. repeat split; reflexivity.
Qed.

(** On [partial_fill] the single-trip script reports a volume of 229.6 and
    a net cost of 0.2. *)
Lemma volume_on_partial_fill :
  ∃ r s',
    UethRoundtripTrade.main account (start partial_fill)
    = (Returns (UethRoundtripTrade.Completed r), s')
    ∧ UethRoundtripTrade.total_volume r
      = UethRoundtripTrade.usdc_spent r + UethRoundtripTrade.usdc_received r
    ∧ - UethRoundtripTrade.net_usdc_change r
      == UethRoundtripTrade.usdc_spent r - UethRoundtripTrade.usdc_received r
    ∧ UethRoundtripTrade.total_volume r == 2296 # 10
    ∧ - UethRoundtripTrade.net_usdc_change r == 2 # 10.
Proof.
  pose proof (proj1 (volume_and_cost (W:=Scripted) account) (start partial_fill)) as Hthm.
  eexists _, _. split; [vm_compute; reflexivity|].
  edestruct Hthm as (Hv & Hc & _); [vm_compute; reflexivity|].
  split; [exact Hv|]. split; [exact Hc|]. split; reflexivity.
Defined.

(** * Further properties of the scripts *)

(** ** Pair lookup *)

Section PairLookup.
Context {W : Type} `{Venue W}.

Lemma find_pair_loop_cons spot_meta asset_info rest (s : St W) :
  find_pair_loop spot_meta (asset_info :: rest) s
  = match pair_name_of spot_meta asset_info with
    | None => (Raises IndexError, s)
    | Some pair_name =>
        if String.eqb pair_name "UETH/USDC"
        then (Returns (asset_name asset_info, pair_name), s)
        else find_pair_loop spot_meta rest s
    end.
Proof.
  cbn [find_pair_loop]. unfold pair_name_of. unfold_py.
  destruct (asset_tokens asset_info !! 0%nat) as [t0|]; cbn; [|done].
  destruct (tokens spot_meta !! t0) as [base_token|]; cbn; [|done].
  destruct (asset_tokens asset_info !! 1%nat) as [t1|]; cbn; [|done].
  destruct (tokens spot_meta !! t1) as [quote_token|]; cbn; [|done].
  by destruct (String.eqb _ _).
Qed.

Lemma find_pair_loop_skip spot_meta pre rest (s : St W) :
  (∀ x, x ∈ pre → ∃ pair_name,
      pair_name_of spot_meta x = Some pair_name ∧ pair_name ≠ "UETH/USDC") →
  find_pair_loop spot_meta (pre ++ rest) s = find_pair_loop spot_meta rest s.
Proof.
  induction pre as [|x pre IH]; intros Hpre; [done|].
  cbn [app]. rewrite find_pair_loop_cons.
  destruct (Hpre x) as (pn & -> & Hne); [by left|].
  apply String.eqb_neq in Hne. rewrite Hne.
  apply IH. intros y Hy. apply Hpre. by right.
Qed.


(** X2. When every instrument is well formed and none is named
    ["UETH/USDC"], the lookup raises the pair-not-found exception. *)
Theorem find_pair_not_found (s : St W) spot_meta w' :
  venue_spot_meta (world s) = (Answer spot_meta, w') →
  (∀ x, x ∈ universe spot_meta → ∃ pair_name,
      pair_name_of spot_meta x = Some pair_name ∧ pair_name ≠ "UETH/USDC") →
  find_ueth_usdc_pair s = (Raises (Exception Pair_not_found), mkSt w' (trace s)).
Proof.
  intros Hq Hall. unfold find_ueth_usdc_pair. unfold_py. rewrite Hq.
  rewrite <- (app_nil_r (universe spot_meta)).
  by rewrite (find_pair_loop_skip _ _ _ _ Hall).
Qed.

(** X3. An instrument with fewer than two token indices, or with an index
    outside the token table, met before any match, ends the lookup with
    [IndexError], whatever instruments follow it. *)
Theorem find_pair_malformed_entry (s : St W) spot_meta w' pre asset_info post :
  venue_spot_meta (world s) = (Answer spot_meta, w') →
  universe spot_meta = pre ++ asset_info :: post →
  (∀ x, x ∈ pre → ∃ pair_name,
      pair_name_of spot_meta x = Some pair_name ∧ pair_name ≠ "UETH/USDC") →
  pair_name_of spot_meta asset_info = None →
  find_ueth_usdc_pair s = (Raises IndexError, mkSt w' (trace s)).
Proof.
  intros Hq Hu Hpre Hbad. unfold find_ueth_usdc_pair. unfold_py. rewrite Hq, Hu.
  rewrite (find_pair_loop_skip _ _ _ _ Hpre), find_pair_loop_cons, Hbad. done.
Qed.

(** What the lookup can raise, and that it leaves the trace alone. *)
Lemma find_pair_raises (s : St W) e s0 :
  find_ueth_usdc_pair s = (Raises e, s0) →
  trace s0 = trace s
  ∧ (e = Exception Pair_not_found ∨ e = IndexError ∨ ∃ detail, e = SdkError detail).
Proof.
  unfold find_ueth_usdc_pair. unfold_py.
  destruct (venue_spot_meta (world s)) as [[spot_meta|detail] w'].
  - generalize (universe spot_meta). intros l.
    induction l as [|x l IH]; rewrite ?find_pair_loop_cons.
    + cbn. intros Hr. inversion Hr; subst. auto.
    + destruct (pair_name_of spot_meta x) as [pn|].
      * destruct (String.eqb pn "UETH/USDC"); [discriminate|exact IH].
      * intros Hr. inversion Hr; subst. auto.
  - intros Hr. inversion Hr; subst. eauto.
Qed.

End PairLookup.

(** ** Reading a balance, again *)

Section BalanceRows.
Context {W : Type} `{Venue W}.

(** X4. When the venue lists a coin more than once, [get_balance] returns
    the ["total"] of the first row of that coin: later rows and the row's
    ["hold"] are ignored, and nothing is printed or placed. *)
Theorem get_balance_first_row address token_name (s : St W) pre row post w' :
  venue_spot_user_state address (world s) = (Answer (pre ++ row :: post), w') →
  (∀ r, r ∈ pre → coin r ≠ token_name) →
  coin row = token_name →
  get_balance address token_name s = (Returns (total row), mkSt w' (trace s)).
Proof.
  intros Hq Hpre Hrow. rewrite (get_balance_run _ _ _ _ _ Hq).
  by rewrite (scan_balances_first pre row post token_name Hpre Hrow).
Qed.

End BalanceRows.

(** ** The batch round trip, case by case *)

Section BatchTripCases.
Context {W : Type} `{Venue W}.
Import Ueth50Roundtrips.

Ltac not_ok :=
  match goal with
  | Hs : (status ?r =? "ok")%string = false |- status ?r ≠ "ok" =>
      by apply String.eqb_neq
  end.

(** X5. The error a failed batch round trip returns tells which orders it
    placed: none for insufficient funds (the balance read was below 1), a
    missing mid price (the key is the instrument) or a zero price; the buy
    alone when the venue did not accept the buy; the buy and the sell when
    it did not accept the sell; the other exceptions of the scripts never
    come out of it. *)
Theorem trip_error_tells_orders address ueth_asset k n (s : St W) r s' e :
  execute_single_roundtrip address ueth_asset k n s = (Returns r, s') →
  error r = Some e →
  success r = false
  ∧ match e with
    | Exception (Insufficient_USDC usdc_before) =>
        usdc_before < 1 ∧ orders (trace s') = orders (trace s)
    | KeyError key => key = ueth_asset ∧ orders (trace s') = orders (trace s)
    | ZeroDivisionError => orders (trace s') = orders (trace s)
    | Exception (Buy_failed buy_result) =>
        status buy_result ≠ "ok"
        ∧ ∃ q, orders (trace s') = orders (trace s) ++ [buy_order ueth_asset q]
    | Exception (Sell_failed sell_result) =>
        status sell_result ≠ "ok"
        ∧ ∃ q, orders (trace s')
               = orders (trace s) ++ [buy_order ueth_asset q; sell_order ueth_asset q]
    | SdkError _ =>
        ∃ os, orders (trace s') = orders (trace s) ++ os ∧ roundtrip_orders os
    | _ => False
    end.
Proof.
  unfold execute_single_roundtrip. exec.
  all: intros Hr He; inversion Hr; subst; clear Hr.
  all: cbn in He; inversion He; subst; clear He.
  all: (split; [reflexivity|]); cbn [trace]; rewrite !orders_app; cbn;
       rewrite <- ?app_assoc; cbn.
  all: try (split; [first [assumption|reflexivity|not_ok]|]).
  all: try (by rewrite app_nil_r).
  all: try (by eexists).
  all: try (eexists; split; [reflexivity|constructor]).
  all: try (exists []; split; [by rewrite app_nil_r|constructor]).
Qed.

(** X6. A successful batch round trip has placed exactly the buy and then
    the sell, both of the size it reports as ['ueth_amount'], and returns
    no error. *)
Theorem trip_success_orders address ueth_asset k n (s : St W) r s' :
  execute_single_roundtrip address ueth_asset k n s = (Returns r, s') →
  success r = true →
  error r = None
  ∧ ∃ q, ueth_amount r = Some q
         ∧ trace s' = trace s ++ [EvBanner k n;
                                  EvOrder (buy_order ueth_asset q);
                                  EvOrder (sell_order ueth_asset q)].
Proof.
  unfold execute_single_roundtrip. exec.
  all: intros Hr Hs; inversion Hr; subst; clear Hr; cbn in Hs; try discriminate.
  cbn. split; [done|]. eexists. split; [reflexivity|].
  by rewrite <- !app_assoc.
Qed.

End BatchTripCases.

(** ** Figures of the batch *)

Lemma floor4_nonneg x : 0 <= x → 0 <= floor4 x.
Proof.
  intros Hx. unfold floor4. apply Qle_shift_div_l; [reflexivity|].
  rewrite Qmult_0_l. change 0 with (inject_Z 0). rewrite <- Zle_Qle.
  change 0%Z with (Qfloor 0). apply Qfloor_resp_le. lra.
Qed.

Lemma estimate_nonneg usdc price :
  0 <= usdc → ¬ price == 0 → 0 <= floor4 (usdc / price) * price * 2.
Proof.
  intros Hu Hp. pose proof (floor4_le (usdc / price)) as Hle.
  assert (usdc / price * price == usdc) as Hx by (field; exact Hp).
  destruct (Qlt_le_dec 0 price) as [Hpos|Hneg].
  - assert (0 <= usdc / price) as Hq.
    { apply Qle_shift_div_l; [exact Hpos|lra]. }
    pose proof (floor4_nonneg _ Hq) as Hf.
    assert (0 <= floor4 (usdc / price) * price) by (apply Qmult_le_0_compat; lra).
    lra.
  - assert (0 <= (usdc / price - floor4 (usdc / price)) * (- price)) as H1
      by (apply Qmult_le_0_compat; lra).
    nra.
Qed.


Section BatchFigures.
Context {W : Type} `{Venue W}.
Import Ueth50Roundtrips Ueth50Runs.

Lemma trip_volume_nonneg address ueth_asset k n (s : St W) r s' :
  execute_single_roundtrip address ueth_asset k n s = (Returns r, s') →
  0 <= volume r.
Proof.
  unfold execute_single_roundtrip. exec.
  all: intros Hr; inversion Hr; subst; clear Hr; cbn; try lra.
  apply estimate_nonneg; [lra|].
  intros Hc. apply Qeq_bool_iff in Hc. congruence.
Qed.


Lemma trip_orders_count address ueth_asset k n (s : St W) r s' :
  execute_single_roundtrip address ueth_asset k n s = (Returns r, s') →
  ∃ os, orders (trace s') = orders (trace s) ++ os
        ∧ (length os ≤ 2)%nat
        ∧ (success r = true → length os = 2%nat).
Proof.
  unfold execute_single_roundtrip. exec.
  all: intros Hr; inversion Hr; subst; clear Hr.
  all: cbn [trace success]; rewrite !orders_app; cbn [orders app];
       rewrite <- ?app_assoc; cbn [app].
  all: try (exists []; rewrite app_nil_r; split; [done|];
            split; [cbn; lia|discriminate]).
  all: eexists; (split; [reflexivity|]); cbn; split; first [lia|discriminate|done].
Qed.

Lemma batch_loop_orders address ueth_asset n nums :
  ∀ acc (s : St W) b s',
    batch_loop address ueth_asset n nums acc s = (Returns b, s') →
    ∃ os, orders (trace s') = orders (trace s) ++ os
          ∧ (2 * successful_trades b ≤ length os + 2 * successful_trades acc)%nat
          ∧ (length os + 2 * successful_trades acc + 2 * failed_trades acc
             ≤ 2 * successful_trades b + 2 * failed_trades b)%nat
          ∧ (0 <= total_volume acc → 0 <= total_volume b).
Proof.
  induction nums as [|i nums IH]; intros acc s b s'.
  - cbn. intros Hr. inversion Hr; subst. exists []. rewrite app_nil_r.
    cbn. repeat split; [lia|lia|done].
  - cbn [batch_loop]. unfold bind at 1.
    destruct (trip_returns address ueth_asset i n s) as (r & Hr & _).
    rewrite Hr.
    destruct (trip_orders_count address ueth_asset i n s r _ Hr) as (os1 & Ho1 & Hle & Heq).
    pose proof (trip_volume_nonneg address ueth_asset i n s r _ Hr) as Hv.
    set (s1 := snd (execute_single_roundtrip address ueth_asset i n s)) in *.
    destruct (success r) eqn:Hs.
    + intros Hb. apply IH in Hb as (os & Ho & H1 & H2 & H3).
      cbn [successful_trades failed_trades total_volume] in *.
      exists (os1 ++ os). rewrite Ho, Ho1, <- app_assoc, length_app.
      specialize (Heq eq_refl). repeat split; [lia|lia|].
      intros Hacc. apply H3. lra.
    + intros Hb. inversion Hb; subst. exists os1.
      cbn [successful_trades failed_trades total_volume].
      split; [exact Ho1|]. split; [lia|]. split; [lia|done].
Qed.

(** X8. A batch places two orders for each round trip that succeeded and at
    most two for the one that failed, so at most [2 * n] in all; its total
    volume is never negative. *)
Theorem batch_orders_and_volume address ueth_asset (n : nat) (s : St W) :
  ∃ b s' os,
    run_batch address ueth_asset n s = (Returns b, s')
    ∧ orders (trace s') = orders (trace s) ++ os
    ∧ (2 * successful_trades b ≤ length os)%nat
    ∧ (length os ≤ 2 * successful_trades b + 2 * failed_trades b)%nat
    ∧ (length os ≤ 2 * n)%nat
    ∧ 0 <= total_volume b.
Proof.
  unfold run_batch.
  destruct (batch_loop_spec address ueth_asset n (seq 1 n) initial_stats s)
    as (b & s' & rs & Hb & _ & Hlen & _ & Hcnt & _).
  destruct (batch_loop_orders address ueth_asset n _ _ _ _ _ Hb) as (os & Ho & H1 & H2 & H3).
  rewrite length_seq in Hlen. cbn in Hcnt, H1, H2, H3.
  exists b, s', os. split; [exact Hb|]. split; [exact Ho|].
  repeat split; [lia|lia|lia|]. apply H3. lra.
Qed.

Lemma batch_loop_all_ok address ueth_asset n nums :
  ∀ acc (s : St W),
    (∀ l1 i l2, nums = l1 ++ i :: l2 →
       trip_ok address ueth_asset n i (after_trips address ueth_asset n l1 s) = true) →
    ∃ b, batch_loop address ueth_asset n nums acc s
         = (Returns b, after_trips address ueth_asset n nums s)
       ∧ successful_trades b = (successful_trades acc + length nums)%nat
       ∧ failed_trades b = failed_trades acc
       ∧ length (trade_results b) = (length (trade_results acc) + length nums)%nat.
Proof.
  induction nums as [|i nums IH]; intros acc s Hok.
  - exists acc. cbn. repeat split; lia.
  - pose proof (Hok [] i nums eq_refl) as Hi. cbn [after_trips] in Hi.
    unfold trip_ok in Hi.
    destruct (trip_returns address ueth_asset i n s) as (r & Hr & _).
    cbn [batch_loop after_trips]. unfold bind at 1. rewrite Hr in Hi |- *.
    cbn [fst] in Hi. rewrite Hi.
    edestruct IH as (b & Hb & Hs & Hf & Hl); [|rewrite Hb].
    + intros l1 j l2 ->. apply (Hok (i :: l1) j l2 eq_refl).
    + exists b. split; [reflexivity|]. cbn in Hs, Hf, Hl.
      rewrite length_app in Hl. cbn in Hl |- *. lia.
Qed.

(** X9. When every round trip of a batch of [n] succeeds, the loop runs to
    its end: [n] successes, no failure, [n] results, and the banners of
    round trips 1 to [n]. *)
Theorem batch_runs_to_the_end address ueth_asset (n : nat) (s : St W) :
  (∀ i, (1 ≤ i ≤ n)%nat →
     trip_ok address ueth_asset n i
       (after_trips address ueth_asset n (seq 1 (i - 1)) s) = true) →
  ∃ b s',
    run_batch address ueth_asset n s = (Returns b, s')
    ∧ s' = after_trips address ueth_asset n (seq 1 n) s
    ∧ successful_trades b = n
    ∧ failed_trades b = 0%nat
    ∧ length (trade_results b) = n
    ∧ banners (trace s') = banners (trace s) ++ map (λ i, (i, n)) (seq 1 n).
Proof.
  intros Hok. unfold run_batch.
  destruct (batch_loop_all_ok address ueth_asset n (seq 1 n) initial_stats s)
    as (b & Hb & Hs & Hf & Hl).
  - intros l1 i l2 Heq. destruct (seq_split_at _ _ _ _ Heq) as [-> Hl1].
    assert (length l1 < n)%nat as Hlt.
    { apply (f_equal length) in Heq. rewrite length_seq, length_app in Heq.
      cbn in Heq. lia. }
    rewrite Hl1 at 2. replace (length l1) with (S (length l1) - 1)%nat at 2 by lia.
    apply Hok. lia.
  - exists b, (after_trips address ueth_asset n (seq 1 n) s).
    rewrite length_seq in Hs, Hl. cbn in Hs, Hf, Hl.
    split; [exact Hb|]. repeat split; try done. apply after_trips_banners.
Qed.

End BatchFigures.

(** ** What a failure tells about the orders placed *)

Ltac run_find_pair :=
  match goal with
  | |- context [@find_ueth_usdc_pair _ _ ?s] =>
      let Hft := fresh "Hft" in
      let Hfr := fresh "Hfr" in
      pose proof (find_pair_trace s) as Hft;
      pose proof (find_pair_raises s) as Hfr;
      destruct (find_ueth_usdc_pair s) as [[[? ?]|?] ?];
      cbn [fst snd] in Hft |- *
  end.

Ltac status_not_ok :=
  match goal with
  | Hs : (status ?r =? "ok")%string = false |- status ?r ≠ "ok" =>
      by apply String.eqb_neq
  end.

(** A delta that is zero is not positive. *)
Ltac zero_not_positive :=
  match goal with
  | Hz : Qeq_bool ?x 0 = true, Hle : Qle_bool ?x 0 = false |- _ =>
      exfalso; apply Qeq_bool_iff in Hz;
      assert (Qle_bool x 0 = true) by (apply Qle_bool_iff; lra); congruence
  end.

Section Failures.
Context {W : Type} `{Venue W}.


(** X11. The exception [ueth_roundtrip_trade.py] ends with tells which
    orders it placed: none when the pair, the mid price or the funds are
    missing; the buy alone when the venue did not accept it or no UETH
    came in; the buy and the sell when the sell was not accepted; a
    division by zero comes either before any order (zero mid price) or
    after both (the rounded size is zero), never between the two. *)
Theorem failure_tells_orders address (s : St W) e s' :
  UethRoundtripTrade.main address s = (Returns (UethRoundtripTrade.TradeFailed e), s') →
  match e with
  | Exception Pair_not_found | IndexError | KeyError _ => trace s' = trace s
  | Exception (Insufficient_USDC_balance initial_usdc) =>
      initial_usdc < 1 ∧ trace s' = trace s
  | Exception (Buy_failed buy_result) =>
      status buy_result ≠ "ok"
      ∧ ∃ asset q, trace s' = trace s ++ [EvOrder (buy_order asset q)]
  | Exception No_base_received =>
      ∃ asset q, trace s' = trace s ++ [EvOrder (buy_order asset q)]
  | Exception (Sell_failed sell_result) =>
      status sell_result ≠ "ok"
      ∧ ∃ asset q, trace s' = trace s ++ [EvOrder (buy_order asset q);
                                          EvOrder (sell_order asset q)]
  | ZeroDivisionError =>
      trace s' = trace s
      ∨ ∃ asset q, q == 0
                   ∧ trace s' = trace s ++ [EvOrder (buy_order asset q);
                                            EvOrder (sell_order asset q)]
  | SdkError _ => ∃ os, trace s' = trace s ++ map EvOrder os ∧ roundtrip_orders os
  | Exception (Insufficient_USDC _) | NameError _ => False
  end.
Proof.
  unfold UethRoundtripTrade.main, UethRoundtripTrade.main_body,
    UethRoundtripTrade.buy_leg, UethRoundtripTrade.sell_leg,
    UethRoundtripTrade.fee_report.
  unfold_py. cbn [fst snd world trace negb].
  run_find_pair.
  2: { intros Hr. inversion Hr; subst; clear Hr.
       destruct (Hfr _ _ eq_refl) as (Ht & [->|[->|[detail ->]]]); try done.
       exists []. cbn. rewrite app_nil_r. split; [exact Ht|constructor]. }
  clear Hfr. repeat exec_step.
  all: cbn [UethRoundtripTrade.ueth_after_buy UethRoundtripTrade.initial_ueth
            UethRoundtripTrade.initial_usdc UethRoundtripTrade.usdc_after_buy
            UethRoundtripTrade.ueth_asset UethRoundtripTrade.ueth_trade_amount] in *.
  all: repeat exec_step.
  all: try zero_not_positive.
  all: intros Hr; inversion Hr; subst; clear Hr.
  all: cbn [trace]; rewrite <- ?app_assoc; cbn [app]; rewrite ?Hft.
  all: try done.
  all: try (split; [first [assumption|status_not_ok]|]).
  all: try (by eexists _, _).
  all: try (exists []; split; [by rewrite app_nil_r|constructor]).
  all: try (eexists [_]; split; [reflexivity|constructor]).
  all: try (eexists [_; _]; split; [reflexivity|constructor]).
  all: try (right; eexists _, _; split; [by apply Qeq_bool_iff|reflexivity]).
  all: by left.
Qed.


End Failures.

(** ** The scripts that stop at an unbound name *)

Section UnboundNames.
Context {W : Type} `{Venue W}.



End UnboundNames.

(** ** Order sizes *)

Section OrderSizes.
Context {W : Type} `{Venue W}.

(** X14. Neither UETH script ever places an order whose size has more than
    four decimals: every order of a batch round trip and of a run of
    [ueth_roundtrip_trade.py] is for a whole multiple of 0.0001. *)
Theorem order_sizes_on_grid address :
  (∀ ueth_asset k n (s : St W), ∃ os,
     orders (trace (snd (Ueth50Roundtrips.execute_single_roundtrip
                           address ueth_asset k n s)))
     = orders (trace s) ++ os
     ∧ Forall (λ o, ∃ z : Z, sz o * 10000 == inject_Z z) os)
  ∧ (∀ s : St W, ∃ os,
       orders (trace (snd (UethRoundtripTrade.main address s)))
       = orders (trace s) ++ os
       ∧ Forall (λ o, ∃ z : Z, sz o * 10000 == inject_Z z) os).
Proof.
  split.
  - intros ueth_asset k n s.
    destruct (trip_orders_are_rounded address ueth_asset k n s) as (os & Ht & Hos).
    exists os. rewrite Ht, orders_app. cbn. rewrite orders_map_EvOrder.
    split; [done|]. eapply Forall_impl; [exact Hos|].
    intros o (u & p & _ & _ & ->). eexists. apply floor4_increment.
  - intros s.
    unfold UethRoundtripTrade.main, UethRoundtripTrade.main_body,
      UethRoundtripTrade.buy_leg, UethRoundtripTrade.sell_leg,
      UethRoundtripTrade.fee_report.
    unfold_py. cbn [fst snd world trace negb].
    run_find_pair.
    2: { exists []. rewrite app_nil_r, Hft. split; [done|constructor]. }
    clear Hfr. repeat exec_step.
    all: cbn [UethRoundtripTrade.ueth_after_buy UethRoundtripTrade.initial_ueth
              UethRoundtripTrade.initial_usdc UethRoundtripTrade.usdc_after_buy
              UethRoundtripTrade.ueth_asset UethRoundtripTrade.ueth_trade_amount] in *.
    all: repeat exec_step.
    all: cbn [trace]; rewrite ?orders_app, ?Hft; cbn [orders app];
         rewrite <- ?app_assoc; cbn [app].
    all: try (exists []; rewrite app_nil_r; split; [done|constructor]).
    all: eexists; (split; [reflexivity|]).
    all: repeat constructor; cbn [sz]; eexists; apply floor4_increment.
Qed.

End OrderSizes.

(** ** The USDE script, case by case *)

Section UsdeCases.
Context {W : Type} `{Venue W}.


End UsdeCases.

(** ** The batch script as a whole *)

Section BatchMain.
Context {W : Type} `{Venue W}.

(** X16. A run of the batch script always comes back, with a summary or a
    setup failure, and has then attempted at most 50 round trips and placed
    at most 100 orders. *)
Theorem main_attempts_and_orders address (s : St W) :
  ∃ out s' os,
    Ueth50Roundtrips.main address s = (Returns out, s')
    ∧ orders (trace s') = orders (trace s) ++ os
    ∧ (length os ≤ 100)%nat
    ∧ (length (banners (trace s')) ≤ length (banners (trace s)) + 50)%nat.
Proof.
  unfold Ueth50Roundtrips.main, Ueth50Roundtrips.main_with.
  unfold try_except, bind at 1.
  pose proof (find_pair_trace s) as Hft.
  destruct (find_ueth_usdc_pair s) as [[found|e0] s0]; cbn [snd] in Hft.
  2: { eexists _, _, []. split; [reflexivity|]. rewrite app_nil_r, Hft.
       cbn. repeat split; lia. }
  unfold bind at 1. unfold_py.
  destruct (venue_spot_user_state address (world s0)) as [[rows|detail] w1].
  2: { eexists _, _, []. split; [reflexivity|]. cbn [trace]. rewrite app_nil_r, Hft.
       cbn. repeat split; lia. }
  unfold Ueth50Roundtrips.run_batch. cbn [world trace].
  match goal with
  | |- context [Ueth50Roundtrips.batch_loop ?a ?u ?m ?l ?acc ?st] =>
      destruct (batch_loop_spec a u m l acc st)
        as (b & s2 & rs & Hb & _ & Hlen & Hban & Hcnt & _);
      destruct (batch_loop_orders a u m l acc st b s2 Hb) as (os & Ho & _ & H2 & _);
      rewrite Hb
  end.
  rewrite length_seq in Hlen. cbn in Hcnt, H2. cbn [trace] in Ho, Hban.
  rewrite Hft in Ho, Hban.
  assert (length (banners (trace s2)) ≤ length (banners (trace s)) + 50)%nat as Hbn.
  { rewrite Hban, length_app, length_map, length_take, length_seq. lia. }
  destruct (venue_spot_user_state address (world s2)) as [[rows2|detail] w2].
  all: eexists _, _, os; (split; [reflexivity|]); cbn [trace].
  all: split; [exact Ho|]; split; [lia|exact Hbn].
Qed.

End BatchMain.

(** ** More runs on the scripted venues *)


Lemma lookup_on_no_ueth_listing :
  find_ueth_usdc_pair (open_listed no_ueth_listing never_fills)
  = (Raises (Exception Pair_not_found), open_listed no_ueth_listing never_fills).
Proof.
  apply (find_pair_not_found (W:=Listed)
           (open_listed no_ueth_listing never_fills) no_ueth_listing
           (mkListed no_ueth_listing never_fills)).
  - reflexivity.
  - intros x Hx. cbn in Hx.
    apply elem_of_cons in Hx as [->|Hx];
      [|apply list_elem_of_singleton in Hx as ->].
    + exists "PURR/USDC". split; [reflexivity|discriminate].
    + exists "USDE/USDC". split; [reflexivity|discriminate].
Defined.

(** On [broken_listing] the lookup stops at the first instrument, though
    the second one is UETH/USDC. *)
Lemma lookup_on_broken_listing :
  find_ueth_usdc_pair (open_listed broken_listing never_fills)
  = (Raises IndexError, open_listed broken_listing never_fills).
Proof.
  apply (find_pair_malformed_entry (W:=Listed)
           (open_listed broken_listing never_fills) broken_listing
           (mkListed broken_listing never_fills)
           [] (mkAssetInfo "@7" [9; 0]%nat) [mkAssetInfo "@151" [1; 0]%nat]).
  - reflexivity.
  - reflexivity.
  - intros x Hx. inversion Hx.
  - reflexivity.
Defined.

(** Of the two USDC rows of [two_rows], the first is read. *)
Lemma balance_on_two_rows :
  get_balance account "USDC" (start two_rows) = (Returns 115, start two_rows).
Proof.
  apply (get_balance_first_row (W:=Scripted) account "USDC" (start two_rows)
           [mkBalanceRow "UETH" 2 0] (mkBalanceRow "USDC" 115 5)
           [mkBalanceRow "USDC" 7 0] two_rows).
  - reflexivity.
  - intros r Hr. apply list_elem_of_singleton in Hr as ->. cbn. discriminate.
  - reflexivity.
Defined.

(** On [sell_rejected] the failed round trip has placed its buy and its
    sell. *)
Lemma trip_on_sell_rejected :
  Ueth50Roundtrips.execute_single_roundtrip account "@151" 1 50 (start sell_rejected)
  = (Returns (Ueth50Roundtrips.mkTradeResult false
                (Some (Exception (Sell_failed err_reply))) 0 0 None None None),
     mkSt (after_orders sell_rejected 2)
       [EvBanner 1 50; EvOrder (buy_order "@151" (383 # 10000));
        EvOrder (sell_order "@151" (383 # 10000))])
  ∧ status err_reply ≠ "ok"
  ∧ ∃ q, orders [EvBanner 1 50; EvOrder (buy_order "@151" (383 # 10000));
                 EvOrder (sell_order "@151" (383 # 10000))]
         = [buy_order "@151" q; sell_order "@151" q].
Proof.
  assert (Ueth50Roundtrips.execute_single_roundtrip account "@151" 1 50 (start sell_rejected)
          = (Returns (Ueth50Roundtrips.mkTradeResult false
                        (Some (Exception (Sell_failed err_reply))) 0 0 None None None),
             mkSt (after_orders sell_rejected 2)
               [EvBanner 1 50; EvOrder (buy_order "@151" (383 # 10000));
                EvOrder (sell_order "@151" (383 # 10000))])) as Hrun
    by (vm_compute; reflexivity).
  split; [exact Hrun|].
  apply (trip_error_tells_orders (W:=Scripted) account "@151" 1 50
           (start sell_rejected) _ _ (Exception (Sell_failed err_reply)) Hrun eq_refl).
Defined.

Lemma trip_on_partial_fill :
  ∃ r s',
    Ueth50Roundtrips.execute_single_roundtrip account "@151" 1 50 (start partial_fill)
    = (Returns r, s')
    ∧ Ueth50Roundtrips.error r = None
    ∧ ∃ q, Ueth50Roundtrips.ueth_amount r = Some q
           ∧ trace s' = [EvBanner 1 50; EvOrder (buy_order "@151" q);
                         EvOrder (sell_order "@151" q)].
Proof.
  eexists _, _. split; [vm_compute; reflexivity|].
  eapply (trip_success_orders (W:=Scripted) account "@151" 1 50 (start partial_fill));
    [vm_compute; reflexivity|reflexivity].
Defined.


(** A batch of 3 on [never_fills], where every order is accepted. *)
Lemma batch_of_three_all_succeed :
  ∃ b s',
    Ueth50Roundtrips.run_batch account "@151" 3 (start never_fills) = (Returns b, s')
    ∧ s' = Ueth50Runs.after_trips account "@151" 3 [1; 2; 3]%nat (start never_fills)
    ∧ Ueth50Roundtrips.successful_trades b = 3%nat
    ∧ Ueth50Roundtrips.failed_trades b = 0%nat
    ∧ length (Ueth50Roundtrips.trade_results b) = 3%nat
    ∧ banners (trace s') = [(1, 3); (2, 3); (3, 3)]%nat.
Proof.
  apply (batch_runs_to_the_end (W:=Scripted) account "@151" 3 (start never_fills)).
  intros i Hi.
  assert (i = 1 ∨ i = 2 ∨ i = 3)%nat as [-> | [-> | ->]] by lia; vm_compute; reflexivity.
Defined.


(** On [never_fills] the single-trip script ends with the no-fill exception
    and has placed its buy only. *)
Lemma failure_on_never_fills :
  ∃ s',
    UethRoundtripTrade.main account (start never_fills)
    = (Returns (UethRoundtripTrade.TradeFailed (Exception No_base_received)), s')
    ∧ ∃ asset q, trace s' = [EvOrder (buy_order asset q)].
Proof.
  eexists. split; [vm_compute; reflexivity|].
  apply (failure_tells_orders (W:=Scripted) account (start never_fills)
           (Exception No_base_received)).
  vm_compute. reflexivity.
Defined.


(** Where USDE/USDC is listed, funded and priced, the UBTC script stops at
    its first unbound name. *)
Example ubtc_on_usde_listing :
  ∃ s',
    UbtcRoundtripTrade.main account (open_listed no_ueth_listing usde_desk)
    = (Returns (UbtcRoundtripTrade.TradeFailed (NameError "estimated_ubtc_amount")), s')
    ∧ trace s' = [].
Proof. eexists. split; vm_compute; reflexivity. Qed.
